(** * Snooland: the request pipeline of the Reddit client

    A shallow embedding of [src/mod.ts] (classes [Reddit], [RedditAnon],
    [RedditOauth]) and of the earlier [RedditOauth] class kept in
    [src/unnamed/part_000], followed by the properties of the token
    gate, the rate-limit gate, pagination and the session factory.

    Asynchronous methods are embedded as programs over the effects the
    source uses ([this] reads and writes, [Date.now()], the global
    [fetch], [setTimeout], [EventEmitter.emit]); one interpreter runs a
    program alone to completion, a second one runs several calls the way
    the event loop interleaves them. *)

From Stdlib Require Import ZArith List Bool Lia.
From Stdlib Require PrimFloat SpecFloat FloatOps.
From stdpp Require Import base option gmap strings list fin_maps pretty.

Local Open Scope string_scope.
Local Open Scope list_scope.
Local Open Scope Z_scope.

(* ===================================================================== *)
(** * Part I. Definitions                                                 *)
(* ===================================================================== *)

(** ** JavaScript values used by the pipeline *)

(** A JavaScript number, restricted to what the pipeline stores and
    compares: an integer or [NaN].  The one fraction the code computes, the
    delay of the earlier class, is worked out on doubles (below) and kept
    as the whole milliseconds the timer takes. *)
Inductive JSNum : Type :=
| NaN
| Num (z : Z).

Definition js_add (a b : JSNum) : JSNum :=
  match a, b with
  | Num x, Num y => Num (x + y)
  | _, _ => NaN
  end.

Definition js_sub (a b : JSNum) : JSNum :=
  match a, b with
  | Num x, Num y => Num (x - y)
  | _, _ => NaN
  end.

Definition js_mul (a b : JSNum) : JSNum :=
  match a, b with
  | Num x, Num y => Num (x * y)
  | _, _ => NaN
  end.

(** [a > b]; every comparison with [NaN] is false. *)
Definition js_gt (a b : JSNum) : bool :=
  match a, b with
  | Num x, Num y => y <? x
  | _, _ => false
  end.

(** [a === 0]. *)
Definition js_is_zero (a : JSNum) : bool :=
  match a with
  | Num 0 => true
  | _ => false
  end.

(** *** Doubles

    Sums, differences and products of the integers the pipeline meets are
    exact in double arithmetic; a quotient is not.  The one expression
    with a division, the delay of the earlier class, is computed on IEEE
    754 binary64 numbers. *)

(** The double nearest to an integer. *)
Definition double_of_Z (z : Z) : PrimFloat.float :=
  FloatOps.SF2Prim (SpecFloat.binary_normalize FloatOps.prec FloatOps.emax z 0 false).

(** The whole milliseconds of a delay, as [setTimeout] takes them: the
    fraction is dropped.  [NaN] and the infinities, which no timer holds,
    are [NaN] here. *)
Definition whole_ms (f : PrimFloat.float) : JSNum :=
  match FloatOps.Prim2SF f with
  | SpecFloat.S754_zero _ => Num 0
  | SpecFloat.S754_finite s m e =>
    let v := if 0 <=? e then Z.pos m * 2 ^ e else Z.pos m / 2 ^ (- e) in
    Num (if s then - v else v)
  | _ => NaN
  end.

(** Truthiness of a number: [0] and [NaN] are falsy. *)
Definition num_truthy (a : JSNum) : bool :=
  match a with
  | NaN => false
  | Num z => negb (z =? 0)
  end.

(** Truthiness of an optional string ([undefined] or a string): the empty
    string is falsy. *)
Definition str_truthy (o : option string) : bool :=
  match o with
  | Some s => negb (String.eqb s "")
  | None => false
  end.

(** The string-to-number conversions are built-ins of the runtime, not
    code of the repository; the embedding takes them as parameters.
    [Number(null)] is [0] and [parseInt(null)] is [NaN] by the language
    definition, whatever the conversions do on text. *)
Record Runtime : Type := {
  Number_ : string -> JSNum;
  parseInt_ : string -> JSNum
}.

Definition Number_of_header (JS : Runtime) (h : option string) : JSNum :=
  match h with
  | None => Num 0
  | Some s => Number_ JS s
  end.

Definition parseInt_of_header (JS : Runtime) (h : option string) : JSNum :=
  match h with
  | None => NaN
  | Some s => parseInt_ JS s
  end.

(** A property value of the options object handed to [Reddit.create]. *)
Inductive JSVal : Type :=
| VUndefined
| VStr (s : string)
| VDate (t : JSNum).

(** Truthiness of [options.k]; an absent key reads as [undefined]. *)
Definition truthy (v : option JSVal) : bool :=
  match v with
  | Some (VStr s) => negb (String.eqb s "")
  | Some (VDate _) => true
  | Some VUndefined | None => false
  end.

Definition as_str (v : option JSVal) : option string :=
  match v with
  | Some (VStr s) => Some s
  | _ => None
  end.

Definition as_date (v : option JSVal) : option JSNum :=
  match v with
  | Some (VDate t) => Some t
  | _ => None
  end.

Inductive JSError : Type :=
| Error (msg : string)
| TypeError (msg : string)
| SyntaxError (msg : string).

(** ** Sessions of [src/mod.ts] *)

Definition version : string := "0.0.2".

Record RateLimit : Type := {
  reqRemaining : JSNum;
  resetMs : JSNum
}.

(** [BetterToken]; [expiry] holds the time value of the [Date]. *)
Record BetterToken : Type := {
  access : option string;
  refresh : option string;
  expiry : option JSNum
}.

Inductive AppType : Type := script | web.

(** The fields [RedditOauth] adds to [RedditAnon]. *)
Record OauthFields : Type := {
  id_ : option string;
  secret : option string;
  username : option string;
  password : option string;
  appType : option AppType;
  token : BetterToken
}.

(** An instance of [RedditAnon] ([oauth = None]) or of [RedditOauth].
    [errorListeners] is the number of listeners registered on the
    inherited [EventEmitter] for the ["error"] event. *)
Record Session : Type := {
  userAgent : string;
  baseUrl : string;
  rateLimit : RateLimit;
  errorListeners : nat;
  oauth : option OauthFields
}.

Definition set_rateLimit (r : RateLimit) (s : Session) : Session :=
  {| userAgent := userAgent s; baseUrl := baseUrl s; rateLimit := r;
     errorListeners := errorListeners s; oauth := oauth s |}.

Definition on_error (s : Session) : Session :=
  {| userAgent := userAgent s; baseUrl := baseUrl s; rateLimit := rateLimit s;
     errorListeners := S (errorListeners s); oauth := oauth s |}.

Definition set_token_fields (t : BetterToken) (o : OauthFields) : OauthFields :=
  {| id_ := id_ o; secret := secret o; username := username o;
     password := password o; appType := appType o; token := t |}.

(** [setToken(token)]; the method exists on [RedditOauth] only. *)
Definition setToken (t : BetterToken) (s : Session) : Session :=
  {| userAgent := userAgent s; baseUrl := baseUrl s; rateLimit := rateLimit s;
     errorListeners := errorListeners s;
     oauth := set_token_fields t <$> oauth s |}.

(** [new RedditAnon(userAgent)] ([src/mod.ts], lines 88-98) at time [now]. *)
Definition new_RedditAnon (now : Z) (ua : option string) : Session :=
  {| userAgent := default ("Snooland " +:+ version) ua;
     baseUrl := "https://www.reddit.com";
     rateLimit := {| reqRemaining := Num 60; resetMs := Num (now + 60000) |};
     errorListeners := 0%nat;
     oauth := None |}.

(** [new RedditOauth(options)] ([src/mod.ts], lines 335-352) at time [now]. *)
Definition new_RedditOauth (now : Z) (options : gmap string JSVal) : Session :=
  {| userAgent := default ("Snooland " +:+ version) (as_str (options !! "userAgent"));
     baseUrl := "https://oauth.reddit.com";
     rateLimit := {| reqRemaining := Num 60; resetMs := Num (now + 60000) |};
     errorListeners := 0%nat;
     oauth := Some
       {| id_ := as_str (options !! "clientId");
          secret := as_str (options !! "clientSecret");
          username := as_str (options !! "username");
          password := as_str (options !! "password");
          appType :=
            if truthy (options !! "password") then Some script
            else if truthy (options !! "refreshToken") then Some web
            else None;
          token :=
            {| access := as_str (options !! "accessToken");
               refresh := as_str (options !! "refreshToken");
               expiry := as_date (options !! "tokenExpiry") |} |} |}.

(** The outcome of a synchronous call: a value or a thrown error. *)
Inductive Outcome (A : Type) : Type :=
| Returned (a : A)
| Thrown (e : JSError).
Arguments Returned {A} a.
Arguments Thrown {A} e.

(** [Reddit.create(options)] ([src/mod.ts], lines 36-58) at time [now];
    [None] is a call without argument.  The warning on the console is left
    out. *)
Definition create (now : Z) (options : option (gmap string JSVal)) : Outcome Session :=
  match options with
  | None => Returned (new_RedditAnon now None)
  | Some o =>
    if (size o =? 1)%nat && truthy (o !! "userAgent")
    then Returned (new_RedditAnon now (as_str (o !! "userAgent")))
    else if truthy (o !! "clientId") && truthy (o !! "clientSecret")
    then
      if truthy (o !! "username") && truthy (o !! "password")
      then Returned (new_RedditOauth now o)
      else if truthy (o !! "refreshToken")
      then Returned (new_RedditOauth now o)
      else Thrown (TypeError "Missing credentials.")
    else if truthy (o !! "accessToken")
    then Returned (new_RedditOauth now o)
    else Thrown (TypeError "Missing credentials.")
  end.

(** ** Requests, responses and the observable trace *)

(** A value of a query string: a string, or the text a number prints as. *)
Inductive QVal : Type :=
| QStr (s : string)
| QNum (n : JSNum).

(** A [URL]: origin, path and the [searchParams] in order. *)
Record Url : Type := {
  origin : string;
  pathname : string;
  search : list (string * QVal)
}.

Fixpoint search_get (k : string) (l : list (string * QVal)) : option QVal :=
  match l with
  | [] => None
  | (k', v) :: l' => if String.eqb k' k then Some v else search_get k l'
  end.

Fixpoint search_delete (k : string) (l : list (string * QVal)) : list (string * QVal) :=
  match l with
  | [] => []
  | (k', v) :: l' =>
    if String.eqb k' k then search_delete k l' else (k', v) :: search_delete k l'
  end.

(** [searchParams.set(k, v)]: the first entry named [k] takes the value and
    the other entries named [k] go; without one, the pair is appended. *)
Fixpoint search_set (k : string) (v : QVal) (l : list (string * QVal)) : list (string * QVal) :=
  match l with
  | [] => [(k, v)]
  | (k', v') :: l' =>
    if String.eqb k' k then (k, v) :: search_delete k l'
    else (k', v') :: search_set k v l'
  end.

Definition url_set (k : string) (v : QVal) (u : Url) : Url :=
  {| origin := origin u; pathname := pathname u; search := search_set k v (search u) |}.

(** The first argument of a [fetch] method: a path relative to the base URL
    (without query) or a [URL] object. *)
Inductive Input : Type :=
| InPath (path : string)
| InUrl (u : Url).

(** [new URL(input, base)]. *)
Definition new_URL (input : Input) (base : string) : Url :=
  match input with
  | InPath p => {| origin := base; pathname := "/" +:+ p; search := [] |}
  | InUrl u => u
  end.

(** The [Authorization] header: [Basic btoa(id:secret)] or [bearer access];
    an [undefined] component is kept as [None]. *)
Inductive Auth : Type :=
| Basic (client_id client_secret : option string)
| Bearer (access_token : option string).

(** The [RequestInit] a caller passes; of the headers only [Authorization]
    is modelled. *)
Record RequestInit : Type := {
  method : option string;
  body : list (string * string);
  authorization : option Auth
}.

Definition no_init : RequestInit :=
  {| method := None; body := []; authorization := None |}.

(** A request as handed to the global [fetch]. *)
Record Request : Type := {
  rq_url : Url;
  rq_method : option string;
  rq_body : list (string * string);
  rq_authorization : option Auth;
  rq_userAgent : option string
}.

(** A decoded domain object (link, comment, ...); only its identity matters. *)
Inductive Item : Type := item (n : nat).

(** The JSON bodies the pipeline looks into: a listing envelope
    [{data: {children: [{data: T}, ...], after}}], a token grant
    [{access_token, expires_in, refresh_token?}], an object with an [error]
    member, any other object, and the bodies that are no object: [null],
    and a number, string or boolean, kept as JavaScript prints it. *)
Inductive Json : Type :=
| JListing (children : list Item) (after : option string)
| JToken (access_token : string) (expires_in : Z) (refresh_token : option string)
| JErrorBody (error : string)
| JOther
| JNull
| JScalar (text : string).

(** A [Response]: [json] is [None] when the body is not valid JSON. *)
Record Response : Type := {
  ok : bool;
  status : Z;
  statusText : string;
  headers : gmap string string;
  json : option Json
}.

(** The argument of an [emit]. *)
Inductive EmitArg : Type :=
| AErr (e : JSError)
| ATok (access_ refresh_ : option string) (expiry_ : option JSNum).

(** What a run leaves behind: the network calls and timers with the time
    they were started, the events emitted and the page callbacks called. *)
Inductive Event : Type :=
| EvFetch (t : Z) (rq : Request)
| EvTimeout (t : Z) (delay : JSNum)
| EvEmit (name : string) (arg : EmitArg)
| EvCallback (items : list Item).

(** The world outside the session: what the network answers to a request
    (given everything that happened before and the time; [None] is a
    transport failure), how long the answer takes, and how late a timer
    fires.  Durations are naturals: time does not run backwards. *)
Record Env : Type := {
  server : list Event -> Z -> Request -> option Response;
  latency : list Event -> Z -> Request -> N;
  timerLag : list Event -> Z -> N
}.

(** ** Asynchronous methods as programs *)

(** A program over a receiver of type [S].  [AwaitFetch] and
    [AwaitTimeout] are the two places where a method is suspended. *)
Inductive Prog (S A : Type) : Type :=
| Ret (a : A)
| Throw (e : JSError)
| This (k : S -> Prog S A)
| SetThis (s : S) (k : Prog S A)
| DateNow (k : Z -> Prog S A)
| Observe (ev : Event) (k : Prog S A)
| AwaitFetch (rq : Request) (k : option Response -> Prog S A)
| AwaitTimeout (delay : JSNum) (k : Prog S A).
Arguments Ret {S A} a.
Arguments Throw {S A} e.
Arguments This {S A} k.
Arguments SetThis {S A} s k.
Arguments DateNow {S A} k.
Arguments Observe {S A} ev k.
Arguments AwaitFetch {S A} rq k.
Arguments AwaitTimeout {S A} delay k.

Fixpoint bind {S A B : Type} (m : Prog S A) (f : A -> Prog S B) : Prog S B :=
  match m with
  | Ret a => f a
  | Throw e => Throw e
  | This k => This (fun s => bind (k s) f)
  | SetThis s k => SetThis s (bind k f)
  | DateNow k => DateNow (fun t => bind (k t) f)
  | Observe ev k => Observe ev (bind k f)
  | AwaitFetch rq k => AwaitFetch rq (fun r => bind (k r) f)
  | AwaitTimeout d k => AwaitTimeout d (bind k f)
  end.

#[global] Instance Prog_ret {S : Type} : MRet (Prog S) := fun A a => Ret a.
#[global] Instance Prog_bind {S : Type} : MBind (Prog S) := fun A B f m => bind m f.

Definition this_ {S : Type} : Prog S S := This Ret.
Definition set_this {S : Type} (s : S) : Prog S unit := SetThis s (Ret tt).
Definition Date_now {S : Type} : Prog S Z := DateNow Ret.
Definition observe {S : Type} (ev : Event) : Prog S unit := Observe ev (Ret tt).
Definition global_fetch {S : Type} (rq : Request) : Prog S (option Response) :=
  AwaitFetch rq Ret.
(** [await new Promise(resolve => setTimeout(resolve, delay))]. *)
Definition sleep {S : Type} (delay : JSNum) : Prog S unit :=
  AwaitTimeout delay (Ret tt).

(** The state of a run: the receiver, the clock in milliseconds and the
    trace so far (oldest first). *)
Record World (S : Type) : Type := {
  this : S;
  clock : Z;
  trace : list Event
}.
Arguments this {S} w.
Arguments clock {S} w.
Arguments trace {S} w.

(** The longest delay a timer holds, [2^31 - 1] milliseconds. *)
Definition TIMEOUT_MAX : Z := 2147483647.

(** The delay a timer is sure to wait for.  A negative or [NaN] delay is
    no delay, and a delay above [TIMEOUT_MAX] is not honoured: Node then
    sets the timer to 1 ms, other runtimes keep the low 32 bits.  What a
    timer takes beyond this is the lateness of the environment
    ([timerLag]). *)
Definition timeout_ms (d : JSNum) : Z :=
  match d with
  | Num z => if z <=? TIMEOUT_MAX then Z.max 0 z else 0
  | NaN => 0
  end.

(** One call run alone: every await completes before anything else
    happens.  A timer fires no earlier than its delay. *)
Fixpoint run {S A : Type} (env : Env) (p : Prog S A) (w : World S) : Outcome A * World S :=
  match p with
  | Ret a => (Returned a, w)
  | Throw e => (Thrown e, w)
  | This k => run env (k (this w)) w
  | SetThis s k => run env k {| this := s; clock := clock w; trace := trace w |}
  | DateNow k => run env (k (clock w)) w
  | Observe ev k =>
    run env k {| this := this w; clock := clock w; trace := trace w ++ [ev] |}
  | AwaitFetch rq k =>
    run env (k (server env (trace w) (clock w) rq))
      {| this := this w;
         clock := clock w + Z.of_N (latency env (trace w) (clock w) rq);
         trace := trace w ++ [EvFetch (clock w) rq] |}
  | AwaitTimeout d k =>
    run env k
      {| this := this w;
         clock := clock w + timeout_ms d + Z.of_N (timerLag env (trace w) (clock w));
         trace := trace w ++ [EvTimeout (clock w) d] |}
  end.

(** ** Several calls on one session: the event loop *)

(** A call in progress: settled, or suspended on a network answer or on a
    timer, with the time from which it can be resumed. *)
Inductive Task (S A : Type) : Type :=
| Settled (r : Outcome A)
| OnFetch (ready : Z) (answer : option Response) (k : option Response -> Prog S A)
| OnTimeout (ready : Z) (k : Prog S A).
Arguments Settled {S A} r.
Arguments OnFetch {S A} ready answer k.
Arguments OnTimeout {S A} ready k.

(** Run a call without interruption up to its next await. *)
Fixpoint advance {S A : Type} (env : Env) (p : Prog S A) (w : World S) : Task S A * World S :=
  match p with
  | Ret a => (Settled (Returned a), w)
  | Throw e => (Settled (Thrown e), w)
  | This k => advance env (k (this w)) w
  | SetThis s k => advance env k {| this := s; clock := clock w; trace := trace w |}
  | DateNow k => advance env (k (clock w)) w
  | Observe ev k =>
    advance env k {| this := this w; clock := clock w; trace := trace w ++ [ev] |}
  | AwaitFetch rq k =>
    (OnFetch (clock w + Z.of_N (latency env (trace w) (clock w) rq))
             (server env (trace w) (clock w) rq) k,
     {| this := this w; clock := clock w; trace := trace w ++ [EvFetch (clock w) rq] |})
  | AwaitTimeout d k =>
    (OnTimeout (clock w + timeout_ms d + Z.of_N (timerLag env (trace w) (clock w))) k,
     {| this := this w; clock := clock w; trace := trace w ++ [EvTimeout (clock w) d] |})
  end.

(** Resume a suspended call once what it waits for is there. *)
Definition resume {S A : Type} (env : Env) (t : Task S A) (w : World S) : Task S A * World S :=
  match t with
  | Settled r => (Settled r, w)
  | OnFetch ready answer k =>
    advance env (k answer)
      {| this := this w; clock := Z.max (clock w) ready; trace := trace w |}
  | OnTimeout ready k =>
    advance env k
      {| this := this w; clock := Z.max (clock w) ready; trace := trace w |}
  end.

(** Calls made one after the other in the same turn of the event loop:
    each runs up to its first await before the next one starts. *)
Fixpoint issue {S A : Type} (env : Env) (calls : list (Prog S A)) (w : World S)
  : list (Task S A) * World S :=
  match calls with
  | [] => ([], w)
  | p :: calls' =>
    let '(t, w1) := advance env p w in
    let '(ts, w2) := issue env calls' w1 in
    (t :: ts, w2)
  end.

(** The event loop resumes the tasks in the order of [schedule] (positions
    in the pool); a position out of range resumes nothing. *)
Fixpoint deliver {S A : Type} (env : Env) (schedule : list nat)
    (pool : list (Task S A)) (w : World S) : list (Task S A) * World S :=
  match schedule with
  | [] => (pool, w)
  | i :: schedule' =>
    match pool !! i with
    | None => deliver env schedule' pool w
    | Some t =>
      let '(t', w') := resume env t w in
      deliver env schedule' (<[i := t']> pool) w'
    end
  end.

Definition is_settled {S A : Type} (t : Task S A) : bool :=
  match t with
  | Settled _ => true
  | _ => false
  end.

(** ** [RedditAnon] and [RedditOauth] of [src/mod.ts] *)

(** [super.emit("error", e)] of Node's [EventEmitter]: without a listener
    for ["error"] the emitter throws [e]; with one, the listener is called
    and [emit] returns [true].  Listeners only observe. *)
Definition emit_error (e : JSError) : Prog Session bool :=
  s ← this_;
  if (errorListeners s =? 0)%nat then Throw e
  else observe (EvEmit "error" (AErr e));; mret true.

Definition header (name : string) (res : Response) : option string :=
  headers res !! name.

(** The request [RedditAnon.fetch] builds: the input resolved against the
    base URL, [".json"] added to the path, [raw_json=1] set, the caller's
    options and the [User-Agent] header. *)
Definition anon_request (s : Session) (input : Input) (options : RequestInit) : Request :=
  let url := new_URL input (baseUrl s) in
  let url := {| origin := origin url; pathname := pathname url +:+ ".json";
                search := search url |} in
  let url := url_set "raw_json" (QStr "1") url in
  {| rq_url := url; rq_method := method options; rq_body := body options;
     rq_authorization := authorization options;
     rq_userAgent := Some (userAgent s) |}.

(** [RedditAnon.fetch(input, options)] ([src/mod.ts], lines 99-136).  The
    two assignments to [this.rateLimit] are kept apart; [console.info] is
    left out. *)
Definition RedditAnon_fetch (JS : Runtime) (input : Input) (options : RequestInit)
  : Prog Session Json :=
  s ← this_;
  (if js_is_zero (reqRemaining (rateLimit s))
   then now ← Date_now; sleep (js_sub (resetMs (rateLimit s)) (Num now))
   else mret tt);;
  s ← this_;
  res ← global_fetch (anon_request s input options);
  match res with
  | None => Throw (TypeError "fetch failed")
  | Some res =>
    (if ok res then mret tt
     else emit_error (Error (statusText res));; mret tt);;
    s ← this_;
    set_this (set_rateLimit
      {| reqRemaining := Number_of_header JS (header "x-ratelimit-remaining" res);
         resetMs := resetMs (rateLimit s) |} s);;
    s ← this_;
    set_this (set_rateLimit
      {| reqRemaining := reqRemaining (rateLimit s);
         resetMs := Number_of_header JS (header "x-ratelimit-reset" res) |} s);;
    match json res with
    | None => Throw (SyntaxError "Unexpected token in JSON")
    | Some j => mret j
    end
  end.

(** What [getNewToken] resolves to: nothing, the boolean of [emit], or the
    grant body. *)
Inductive GrantResult : Type :=
| RUndefined
| RBool (b : bool)
| RJson (j : Json).

(** ["error" in json]: the operator throws on a body that is no object. *)
Definition has_error (j : Json) : Outcome bool :=
  match j with
  | JErrorBody _ => Returned true
  | JNull =>
    Thrown (TypeError "Cannot use 'in' operator to search for 'error' in null")
  | JScalar text =>
    Thrown (TypeError ("Cannot use 'in' operator to search for 'error' in " +:+ text))
  | _ => Returned false
  end.

(** The error of [json.data.children] on a body that is no listing. *)
Definition not_a_listing (j : Json) : JSError :=
  match j with
  | JNull => TypeError "Cannot read properties of null (reading 'data')"
  | _ => TypeError "Cannot read properties of undefined (reading 'children')"
  end.

Definition json_error (j : Json) : string :=
  match j with
  | JErrorBody e => e
  | _ => "undefined"
  end.

Definition json_access_token (j : Json) : option string :=
  match j with
  | JToken a _ _ => Some a
  | _ => None
  end.

(** [json.expires_in]; a missing member makes the arithmetic [NaN]. *)
Definition json_expires_in (j : Json) : JSNum :=
  match j with
  | JToken _ e _ => Num e
  | _ => NaN
  end.

Definition json_refresh_token (j : Json) : option string :=
  match j with
  | JToken _ _ r => r
  | _ => None
  end.

Definition token_endpoint : Url :=
  {| origin := "https://www.reddit.com"; pathname := "/api/v1/access_token";
     search := [] |}.

(** The [POST] to the token endpoint with the form [form]. *)
Definition grant_request (client_id client_secret : option string)
    (form : list (string * string)) : Request :=
  {| rq_url := token_endpoint; rq_method := Some "POST"; rq_body := form;
     rq_authorization := Some (Basic client_id client_secret);
     rq_userAgent := None |}.

(** A request to the token endpoint. *)
Definition is_grant (rq : Request) : bool :=
  String.eqb (origin (rq_url rq)) "https://www.reddit.com" &&
  String.eqb (pathname (rq_url rq)) "/api/v1/access_token".

Definition token_of (s : Session) : BetterToken :=
  match oauth s with
  | Some o => token o
  | None => {| access := None; refresh := None; expiry := None |}
  end.

Definition tok_arg (t : BetterToken) : EmitArg :=
  ATok (access t) (refresh t) (expiry t).

(** [new Date(Date.now() + json.expires_in * 1000)]. *)
Definition expiry_after (now : Z) (j : Json) : JSNum :=
  js_add (Num now) (js_mul (json_expires_in j) (Num 1000)).

(** [RedditOauth.getNewToken()] ([src/mod.ts], lines 358-422). *)
Definition getNewToken : Prog Session GrantResult :=
  s ← this_;
  match oauth s with
  | None => mret RUndefined
  | Some o =>
    match appType o with
    | Some web =>
      if negb (str_truthy (refresh (token o)))
      then b ← emit_error (Error "Access token expired; excpected a refresh token.");
           mret (RBool b)
      else
        response ← global_fetch (grant_request (id_ o) (secret o)
          [("grant_type", "refresh_token");
           ("refresh_token", default "" (refresh (token o)))]);
        match response with
        | None => Throw (TypeError "fetch failed")
        | Some response =>
          match json response with
          | None => Throw (SyntaxError "Unexpected token in JSON")
          | Some j =>
            match has_error j with
            | Thrown e => Throw e
            | Returned true => b ← emit_error (Error (json_error j)); mret (RBool b)
            | Returned false =>
              s1 ← this_;
              now ← Date_now;
              set_this (setToken {| access := json_access_token j;
                                    refresh := refresh (token_of s1);
                                    expiry := Some (expiry_after now j) |} s1);;
              s2 ← this_;
              observe (EvEmit "tokenRefreshed" (tok_arg (token_of s2)));;
              mret (RJson j)
            end
          end
        end
    | Some script =>
      if negb (str_truthy (username o)) || negb (str_truthy (password o))
      then Throw (Error "Username and password are required for script apps")
      else
        response ← global_fetch (grant_request (id_ o) (secret o)
          [("grant_type", "password");
           ("username", default "" (username o));
           ("password", default "" (password o))]);
        match response with
        | None => Throw (TypeError "fetch failed")
        | Some response =>
          match json response with
          | None => Throw (SyntaxError "Unexpected token in JSON")
          | Some j =>
            match has_error j with
            | Thrown e => Throw e
            | Returned true => b ← emit_error (Error (json_error j)); mret (RBool b)
            | Returned false =>
              s1 ← this_;
              now ← Date_now;
              set_this (setToken {| access := json_access_token j;
                                    refresh := None;
                                    expiry := Some (expiry_after now j) |} s1);;
              mret (RJson j)
            end
          end
        end
    | None => mret RUndefined
    end
  end.

(** The test that opens [RedditOauth.fetch]:
    [!this.token?.expiry || Date.now() > this.token.expiry.getTime()]. *)
Definition token_stale (now : Z) (t : BetterToken) : bool :=
  match expiry t with
  | None => true
  | Some e => js_gt (Num now) e
  end.

Definition with_authorization (a : Auth) (options : RequestInit) : RequestInit :=
  {| method := method options; body := body options; authorization := Some a |}.

(** [RedditOauth.fetch(input, options)] ([src/mod.ts], lines 424-439). *)
Definition RedditOauth_fetch (JS : Runtime) (input : Input) (options : RequestInit)
  : Prog Session Json :=
  s ← this_;
  now ← Date_now;
  (if token_stale now (token_of s) then getNewToken;; mret tt else mret tt);;
  s1 ← this_;
  RedditAnon_fetch JS input
    (with_authorization (Bearer (access (token_of s1))) options).

(** [this.fetch(...)]: the method of the receiver's class. *)
Definition fetch (JS : Runtime) (input : Input) (options : RequestInit)
  : Prog Session Json :=
  s ← this_;
  match oauth s with
  | None => RedditAnon_fetch JS input options
  | Some _ => RedditOauth_fetch JS input options
  end.

(** [params?.limit || 100]; a string that is kept is converted to a number
    by the first [limit -= 100]. *)
Definition initial_limit (JS : Runtime) (params : option (list (string * QVal))) : JSNum :=
  match params with
  | None => Num 100
  | Some ps =>
    match search_get "limit" ps with
    | Some (QNum n) => if num_truthy n then n else Num 100
    | Some (QStr s) => if String.eqb s "" then Num 100 else Number_ JS s
    | None => Num 100
    end
  end.

(** The [do ... while ((limit -= 100) > 0)] loop of [paginate].  [fuel]
    bounds the number of rounds; with [loop_fuel] it never runs out, and
    more of it changes nothing ([paginate_loop_fuel]). *)
Fixpoint paginate_loop (JS : Runtime) (fuel : nat) (callback : bool)
    (url : Url) (limit : JSNum) (items : list Item) : Prog Session (list Item) :=
  match fuel with
  | O => mret items
  | S fuel' =>
    j ← fetch JS (InUrl url) no_init;
    match j with
    | JListing newItems after =>
      let items := (items ++ newItems) in
      (if callback then observe (EvCallback newItems) else mret tt);;
      if negb (str_truthy after) then mret items
      else
        let url := url_set "after" (QStr (default "" after)) url in
        let limit := js_sub limit (Num 100) in
        if js_gt limit (Num 0)
        then paginate_loop JS fuel' callback url limit items
        else mret items
    | _ => Throw (not_a_listing j)
    end
  end.

(** Rounds that are always enough: the budget loses 100 per round and a
    round is entered only with a positive budget, the first one apart. *)
Definition loop_fuel (limit : JSNum) : nat :=
  match limit with
  | Num z => S (Z.to_nat z)
  | NaN => 1
  end.

(** [RedditAnon.paginate(endpoint, params, callback)] ([src/mod.ts], lines
    138-157); [callback] tells whether one was passed. *)
Definition paginate (JS : Runtime) (endpoint : string)
    (params : option (list (string * QVal))) (callback : bool)
  : Prog Session (list Item) :=
  s ← this_;
  let url := {| origin := baseUrl s; pathname := "/" +:+ endpoint;
                search := default [] params |} in
  let limit := initial_limit JS params in
  paginate_loop JS (loop_fuel limit) callback url limit [].

(** ** The earlier [RedditOauth] class ([src/unnamed/part_000]) *)

Module Legacy.

Record BetterToken : Type := {
  accessToken : option string;
  refreshToken : option string;
  expiry : option JSNum
}.

Record RedditOauth : Type := {
  token : option BetterToken;
  clientID : string;
  clientSecret : string;
  username : option string;
  password : option string;
  appType : AppType;
  userAgent : string;
  rateLimitRemaining : JSNum;
  rateLimitReset : JSNum;
  rateLimitReached : bool
}.

Definition baseURL : string := "https://oauth.reddit.com".

Definition with_token (t : option BetterToken) (s : RedditOauth) : RedditOauth :=
  {| token := t; clientID := clientID s; clientSecret := clientSecret s;
     username := username s; password := password s; appType := appType s;
     userAgent := userAgent s; rateLimitRemaining := rateLimitRemaining s;
     rateLimitReset := rateLimitReset s; rateLimitReached := rateLimitReached s |}.

Definition with_rate (remaining reset : JSNum) (reached : bool) (s : RedditOauth)
  : RedditOauth :=
  {| token := token s; clientID := clientID s; clientSecret := clientSecret s;
     username := username s; password := password s; appType := appType s;
     userAgent := userAgent s; rateLimitRemaining := remaining;
     rateLimitReset := reset; rateLimitReached := reached |}.

(** [setToken(token)]. *)
Definition setToken (t : BetterToken) (s : RedditOauth) : RedditOauth :=
  with_token (Some t) s.

Definition tok_arg (t : option BetterToken) : EmitArg :=
  match t with
  | Some t => ATok (accessToken t) (refreshToken t) (expiry t)
  | None => ATok None None None
  end.

(** [this.token?.refreshToken]. *)
Definition held_refresh (s : RedditOauth) : option string :=
  t ← token s; refreshToken t.

(** [getOauthToken(refresh)] (lines 31-99). *)
Definition getOauthToken (refresh : bool) : Prog RedditOauth Json :=
  s ← this_;
  match appType s with
  | web =>
    if refresh && str_truthy (held_refresh s)
    then
      response ← global_fetch
        (grant_request (Some (clientID s)) (Some (clientSecret s))
           [("grant_type", "refresh_token");
            ("refresh_token", default "" (held_refresh s))]);
      match response with
      | None => Throw (TypeError "fetch failed")
      | Some response =>
        match json response with
        | None => Throw (SyntaxError "Unexpected token in JSON")
        | Some j =>
          match has_error j with
          | Thrown e => Throw e
          | Returned true => Throw (Error (json_error j))
          | Returned false =>
            s1 ← this_;
            now ← Date_now;
            set_this (setToken {| accessToken := json_access_token j;
                                  refreshToken := json_refresh_token j;
                                  expiry := Some (expiry_after now j) |} s1);;
            s2 ← this_;
            observe (EvEmit "tokenRefreshed" (tok_arg (token s2)));;
            mret j
          end
        end
      end
    else Throw (Error "Use setToken to set the token for web apps")
  | script =>
    if negb (str_truthy (username s)) || negb (str_truthy (password s))
    then Throw (Error "Username and password are required for script apps")
    else
      response ← global_fetch
        (grant_request (Some (clientID s)) (Some (clientSecret s))
           [("grant_type", "password");
            ("username", default "" (username s));
            ("password", default "" (password s))]);
      match response with
      | None => Throw (TypeError "fetch failed")
      | Some response =>
        match json response with
        | None => Throw (SyntaxError "Unexpected token in JSON")
        | Some j =>
          match has_error j with
          | Thrown e => Throw e
          | Returned true => Throw (Error (json_error j))
          | Returned false =>
            s1 ← this_;
            now ← Date_now;
            set_this (setToken {| accessToken := json_access_token j;
                                  refreshToken := None;
                                  expiry := Some (expiry_after now j) |} s1);;
            mret j
          end
        end
      end
  end.

(** [!this.token || Date.now() > this.token.expiry!.getTime()]; reading
    [getTime] of a missing expiry throws. *)
Definition token_stale (now : Z) (t : option BetterToken) : Outcome bool :=
  match t with
  | None => Returned true
  | Some t =>
    match expiry t with
    | None => Thrown (TypeError "Cannot read properties of undefined (reading 'getTime')")
    | Some e => Returned (js_gt (Num now) e)
    end
  end.

(** The delay [(this.rateLimitReset - Date.now() / 1000) * 1000], in the
    whole milliseconds the timer of [sleep] takes: [rateLimitReset] counts
    seconds, the clock milliseconds, and the quotient, the difference and
    the product are rounded as doubles are. *)
Definition reset_delay (reset : JSNum) (now : Z) : JSNum :=
  match reset with
  | NaN => NaN
  | Num r =>
    whole_ms (PrimFloat.mul
                (PrimFloat.sub (double_of_Z r)
                   (PrimFloat.div (double_of_Z now) (double_of_Z 1000)))
                (double_of_Z 1000))
  end.
Arguments reset_delay : simpl never.

(** The [fetch] member (lines 111-149). *)
Definition fetch (JS : Runtime) (input : Input) (options : RequestInit)
  : Prog RedditOauth Response :=
  let url := new_URL input baseURL in
  s ← this_;
  now ← Date_now;
  match token_stale now (token s) with
  | Thrown e => Throw e
  | Returned stale =>
    (if stale then getOauthToken true;; mret tt else mret tt);;
    s ← this_;
    (if js_is_zero (rateLimitRemaining s)
     then
       set_this (with_rate (rateLimitRemaining s) (rateLimitReset s) true s);;
       now ← Date_now;
       sleep (reset_delay (rateLimitReset s) now)
     else mret tt);;
    s ← this_;
    match token s with
    | None => Throw (TypeError "Cannot read properties of undefined (reading 'accessToken')")
    | Some t =>
      response ← global_fetch
        {| rq_url := url; rq_method := method options; rq_body := body options;
           rq_authorization := Some (Bearer (accessToken t));
           rq_userAgent := None |};
      match response with
      | None => Throw (TypeError "fetch failed")
      | Some response =>
        if negb (ok response)
        then Throw (Error (pretty (status response) +:+ ": " +:+ statusText response))
        else
          s ← this_;
          set_this (with_rate
            (parseInt_of_header JS (header "x-ratelimit-remaining" response))
            (rateLimitReset s) (rateLimitReached s) s);;
          s ← this_;
          set_this (with_rate (rateLimitRemaining s)
            (parseInt_of_header JS (header "x-ratelimit-reset" response))
            (rateLimitReached s) s);;
          mret response
      end
    end
  end.

(** [new RedditOauth(options)]: the constructor ignores [options.token]. *)
Definition new_RedditOauth (clientID clientSecret : string) (appType : AppType)
    (username password : option string) (userAgent : option string) : RedditOauth :=
  {| token := None; clientID := clientID; clientSecret := clientSecret;
     username := match appType with script => username | web => None end;
     password := match appType with script => password | web => None end;
     appType := appType;
     userAgent := default "reddeno" userAgent;
     rateLimitRemaining := Num 60; rateLimitReset := Num 0;
     rateLimitReached := false |}.

End Legacy.

(** ** Reading a trace *)

(** The events a run added to the trace of the world it started from. *)
Definition new_events {S : Type} (w w' : World S) : list Event :=
  drop (length (trace w)) (trace w').

(** The network calls of a trace with the time each was started. *)
Fixpoint fetches (tr : list Event) : list (Z * Request) :=
  match tr with
  | [] => []
  | EvFetch t rq :: tr' => (t, rq) :: fetches tr'
  | _ :: tr' => fetches tr'
  end.

Definition grant_calls (tr : list Event) : list (Z * Request) :=
  List.filter (fun c => is_grant (snd c)) (fetches tr).

(** The calls to the API proper (everything but the token endpoint). *)
Definition api_calls (tr : list Event) : list (Z * Request) :=
  List.filter (fun c => negb (is_grant (snd c))) (fetches tr).

Fixpoint timeouts (tr : list Event) : list (Z * JSNum) :=
  match tr with
  | [] => []
  | EvTimeout t d :: tr' => (t, d) :: timeouts tr'
  | _ :: tr' => timeouts tr'
  end.

Fixpoint callbacks (tr : list Event) : list (list Item) :=
  match tr with
  | [] => []
  | EvCallback its :: tr' => its :: callbacks tr'
  | _ :: tr' => callbacks tr'
  end.

(** What the network answered to each call of [tr], a trace that continues
    the history [pre]. *)
Fixpoint answers_from (env : Env) (pre tr : list Event) : list (Request * option Response) :=
  match tr with
  | [] => []
  | EvFetch t rq :: tr' =>
    (rq, server env pre t rq) :: answers_from env (pre ++ [EvFetch t rq]) tr'
  | ev :: tr' => answers_from env (pre ++ [ev]) tr'
  end.

(** The listing pages among the answers to API calls, each with all the
    items the server sent. *)
Fixpoint pages_of (answers : list (Request * option Response)) : list (list Item) :=
  match answers with
  | [] => []
  | (rq, Some res) :: answers' =>
    match is_grant rq, json res with
    | false, Some (JListing its _) => its :: pages_of answers'
    | _, _ => pages_of answers'
    end
  | _ :: answers' => pages_of answers'
  end.

(** The cursor a request asks for. *)
Definition after_of (rq : Request) : option QVal :=
  search_get "after" (search (rq_url rq)).

(** ** A traversal, as the rule for pages reads *)

(** The budget that is left after one more page, if any is. *)
Definition budget_left (limit : JSNum) : bool :=
  js_gt (js_sub limit (Num 100)) (Num 0).

Definition deliver_page {S : Type} (callback : bool) (its : list Item) (w : World S)
  : World S :=
  if callback
  then {| this := this w; clock := clock w; trace := trace w ++ [EvCallback its] |}
  else w.

(** [Traversal env JS cb url limit acc w out w' n]: walking a listing from
    [url] with budget [limit] and [acc] already gathered ends in [out]
    after [n] calls of [fetch].  A page is added whole; the walk goes on
    exactly when the page has a cursor and budget is left, and then asks
    for that cursor. *)
Inductive Traversal (env : Env) (JS : Runtime) (cb : bool)
  : Url -> JSNum -> list Item -> World Session ->
    Outcome (list Item) -> World Session -> nat -> Prop :=
| walk_last url limit acc w its after w1 :
    run env (fetch JS (InUrl url) no_init) w = (Returned (JListing its after), w1) ->
    str_truthy after && budget_left limit = false ->
    Traversal env JS cb url limit acc w
      (Returned (acc ++ its)) (deliver_page cb its w1) 1
| walk_next url limit acc w its after w1 out w2 n :
    run env (fetch JS (InUrl url) no_init) w = (Returned (JListing its after), w1) ->
    str_truthy after = true ->
    budget_left limit = true ->
    Traversal env JS cb (url_set "after" (QStr (default "" after)) url)
      (js_sub limit (Num 100)) (acc ++ its) (deliver_page cb its w1) out w2 n ->
    Traversal env JS cb url limit acc w out w2 (S n)
| walk_not_listing url limit acc w j w1 :
    run env (fetch JS (InUrl url) no_init) w = (Returned j, w1) ->
    (forall its after, j <> JListing its after) ->
    Traversal env JS cb url limit acc w
      (Thrown (not_a_listing j)) w1 1
| walk_failed url limit acc w e w1 :
    run env (fetch JS (InUrl url) no_init) w = (Thrown e, w1) ->
    Traversal env JS cb url limit acc w (Thrown e) w1 1.

(** ** A runtime and servers for the examples *)

Fixpoint digits_value (s : string) (acc : Z) : option Z :=
  match s with
  | EmptyString => Some acc
  | String c s' =>
    let n := Z.of_nat (Ascii.nat_of_ascii c) - 48 in
    if (0 <=? n) && (n <=? 9) then digits_value s' (acc * 10 + n) else None
  end.

Definition digits_number (s : string) : JSNum :=
  match digits_value s 0 with
  | Some z => Num z
  | None => NaN
  end.

(** Conversions that agree with [Number] and [parseInt] on strings of
    decimal digits and on texts that start with a letter, the only header
    values of the examples. *)
Definition decimal : Runtime :=
  {| Number_ := fun s => if String.eqb s "" then Num 0 else digits_number s;
     parseInt_ := fun s => if String.eqb s "" then NaN else digits_number s |}.

Definition rate_headers (remaining reset : string) : gmap string string :=
  <["x-ratelimit-remaining" := remaining]> {["x-ratelimit-reset" := reset]}.

Definition ok_response (h : gmap string string) (j : Json) : Response :=
  {| ok := true; status := 200; statusText := "OK"; headers := h; json := Some j |}.

Definition items_from (start len : nat) : list Item := item <$> seq start len.

(** An environment whose network answers by [srv] at once and whose timers
    fire on time. *)
Definition instant (srv : Request -> option Response) : Env :=
  {| server := fun _ _ rq => srv rq;
     latency := fun _ _ _ => 0%N;
     timerLag := fun _ _ => 0%N |}.

(** A listing of 240 items in three pages of 100, 100 and 40. *)
Definition three_pages (rq : Request) : option Response :=
  match after_of rq with
  | None => Some (ok_response (rate_headers "59" "60")
                    (JListing (items_from 0 100) (Some "t3_p2")))
  | Some (QStr "t3_p2") =>
    Some (ok_response (rate_headers "58" "60")
            (JListing (items_from 100 100) (Some "t3_p3")))
  | Some (QStr "t3_p3") =>
    Some (ok_response (rate_headers "57" "60")
            (JListing (items_from 200 40) None))
  | _ => None
  end.

(** A listing without end whose pages hold 40 items each. *)
Definition short_pages (rq : Request) : option Response :=
  Some (ok_response (rate_headers "59" "60")
          (JListing (items_from 0 40) (Some "t3_next"))).

Definition unauthorized : Response :=
  {| ok := false; status := 401; statusText := "Unauthorized";
     headers := rate_headers "59" "60"; json := Some JOther |}.

(** A token endpoint that answers [grant], and an API that answers an
    object to a request with a bearer token and 401 to any other. *)
Definition with_token_endpoint (grant : Json) (rq : Request) : option Response :=
  if is_grant rq
  then Some (ok_response ∅ grant)
  else
    match rq_authorization rq with
    | Some (Bearer (Some _)) => Some (ok_response (rate_headers "59" "60") JOther)
    | _ => Some unauthorized
    end.

Definition start {S : Type} (s : S) (now : Z) : World S :=
  {| this := s; clock := now; trace := [] |}.

(** ** The run of [RedditAnon.fetch] in closed form *)

(** The world in which the request of a fetch started in [w] is sent: with
    no request left, a timer for [resetMs - Date.now()] has run first. *)
Definition after_gate (env : Env) (w : World Session) : World Session :=
  if js_is_zero (reqRemaining (rateLimit (this w)))
  then
    let d := js_sub (resetMs (rateLimit (this w))) (Num (clock w)) in
    {| this := this w;
       clock := clock w + timeout_ms d + Z.of_N (timerLag env (trace w) (clock w));
       trace := trace w ++ [EvTimeout (clock w) d] |}
  else w.

(** The world once the answer is there. *)
Definition after_send (env : Env) (rq : Request) (w : World Session) : World Session :=
  {| this := this w;
     clock := clock w + Z.of_N (latency env (trace w) (clock w) rq);
     trace := trace w ++ [EvFetch (clock w) rq] |}.

(** The rate-limit state read from the headers of [res]. *)
Definition rate_of (JS : Runtime) (res : Response) : RateLimit :=
  {| reqRemaining := Number_of_header JS (header "x-ratelimit-remaining" res);
     resetMs := Number_of_header JS (header "x-ratelimit-reset" res) |}.

Definition decoded (res : Response) : Outcome Json :=
  match json res with
  | Some j => Returned j
  | None => Thrown (SyntaxError "Unexpected token in JSON")
  end.

(** What the session does with the answer to [rq], received in [w]. *)
Definition receive (JS : Runtime) (answer : option Response) (w : World Session)
  : Outcome Json * World Session :=
  match answer with
  | None => (Thrown (TypeError "fetch failed"), w)
  | Some res =>
    if ok res
    then (decoded res,
          {| this := set_rateLimit (rate_of JS res) (this w); clock := clock w;
             trace := trace w |})
    else if (errorListeners (this w) =? 0)%nat
    then (Thrown (Error (statusText res)), w)
    else (decoded res,
          {| this := set_rateLimit (rate_of JS res) (this w); clock := clock w;
             trace := trace w ++ [EvEmit "error" (AErr (Error (statusText res)))] |})
  end.

Definition anon_run (JS : Runtime) (env : Env) (input : Input) (options : RequestInit)
    (w : World Session) : Outcome Json * World Session :=
  let wg := after_gate env w in
  let rq := anon_request (this w) input options in
  receive JS (server env (trace wg) (clock wg) rq) (after_send env rq wg).

(** ** What [Reddit.create] looks for *)

(** The options hold nothing but a user agent that is not empty. *)
Definition only_userAgent (o : gmap string JSVal) : bool :=
  (size o =? 1)%nat && truthy (o !! "userAgent").

(** The options hold a client id and secret with a login or a refresh
    token, or an access token; holding means a value that is not empty. *)
Definition has_credentials (o : gmap string JSVal) : bool :=
  truthy (o !! "clientId") && truthy (o !! "clientSecret") &&
    (truthy (o !! "username") && truthy (o !! "password") ||
     truthy (o !! "refreshToken"))
  || truthy (o !! "accessToken").

(** ** Rate-limit headers that say nothing *)




(** The same session and trace at a later time. *)
Definition at_time {S : Type} (c : Z) (w : World S) : World S :=
  {| this := this w; clock := c; trace := trace w |}.

Definition exhausted (reset : Z) (s : Session) : Session :=
  set_rateLimit {| reqRemaining := Num 0; resetMs := Num reset |} s.

(** An API that answers without any header. *)
Definition bare_api (rq : Request) : option Response :=
  Some (ok_response ∅ JOther).


(** ** Sessions for the examples *)

(** The options of a web app: client credentials, a refresh token, an
    access token and the time it expires. *)
Definition web_options (access_token : string) (tokenExpiry : Z) : gmap string JSVal :=
  <["clientId" := VStr "id"]> (<["clientSecret" := VStr "secret"]>
  (<["refreshToken" := VStr "refresh-0"]> (<["accessToken" := VStr access_token]>
  {["tokenExpiry" := VDate (Num tokenExpiry)]}))).

(** The options of a script app. *)
Definition script_options (pass : string) : gmap string JSVal :=
  <["clientId" := VStr "id"]> (<["clientSecret" := VStr "secret"]>
  (<["username" := VStr "snoo"]> {["password" := VStr pass]})).

(** ** The token invariant as the specification words it *)

(** Every API call of [new] left with the token [tok] attached, and the
    expiry of [tok] was strictly after the moment the call was sent. *)
Definition sent_fresh (new : list Event) (tok : BetterToken) : Prop :=
  forall t rq, In (t, rq) (api_calls new) ->
    rq_authorization rq = Some (Bearer (access tok)) /\
    exists e, expiry tok = Some (Num e) /\ t < e.

(** The error of a web session without refresh token. *)
Definition refresh_token_missing : JSError :=
  Error "Access token expired; excpected a refresh token.".

(** A web session whose token was replaced, through [setToken], by one
    without refresh token that expired at 500. *)
Definition web_without_refresh : Session :=
  setToken {| access := Some "access-0"; refresh := None; expiry := Some (Num 500) |}
    (new_RedditOauth 0 (web_options "access-0" 500)).

(** The session [Reddit.create] makes for a script app at time 0. *)
Definition script_session (pass : string) : Session :=
  match create 0 (Some (script_options pass)) with
  | Returned s => s
  | Thrown _ => new_RedditAnon 0 None
  end.

(** A token endpoint that refuses the grant. *)
Definition refusing : Env :=
  instant (with_token_endpoint (JErrorBody "invalid_grant")).

Definition no_token : BetterToken :=
  {| access := None; refresh := None; expiry := None |}.

(** A web session of the earlier class with no request left until second
    [reset]; its token expires at 5000. *)
Definition legacy_waiting (reset : Z) : Legacy.RedditOauth :=
  Legacy.with_rate (Num 0) (Num reset) false
    (Legacy.setToken
       {| Legacy.accessToken := Some "access-0";
          Legacy.refreshToken := Some "refresh-0";
          Legacy.expiry := Some (Num 5000) |}
       (Legacy.new_RedditOauth "id" "secret" web None None None)).

(** A web session of the earlier class holding a token that expired at 500
    and the refresh token ["refresh-0"]. *)
Definition legacy_web : Legacy.RedditOauth :=
  Legacy.setToken
    {| Legacy.accessToken := Some "access-0";
       Legacy.refreshToken := Some "refresh-0";
       Legacy.expiry := Some (Num 500) |}
    (Legacy.new_RedditOauth "id" "secret" web None None None).

(** The URL [paginate] starts from. *)
Definition listing_url (s : Session) (endpoint : string)
    (params : option (list (string * QVal))) : Url :=
  {| origin := baseUrl s; pathname := "/" +:+ endpoint; search := default [] params |}.

(** [fuel] rounds are enough for the budget [limit]. *)
Definition enough (fuel : nat) (limit : JSNum) : Prop :=
  match limit with
  | Num z => (Z.to_nat z < fuel)%nat
  | NaN => (0 < fuel)%nat
  end.

(** The event a page leaves behind when it is handed to the callback. *)
Definition callback_events (callback : bool) (its : list Item) : list Event :=
  if callback then [EvCallback its] else [].

(** The page a decoded body holds, if it is a listing. *)
Definition page_of (j : Json) : list (list Item) :=
  match j with
  | JListing its _ => [its]
  | _ => []
  end.

(** ** Concurrent fetches *)

(** The session has what [getNewToken] needs to ask for a token. *)
Definition can_grant (o : OauthFields) : bool :=
  match appType o with
  | Some web => str_truthy (refresh (token o))
  | Some script => str_truthy (username o) && str_truthy (password o)
  | None => false
  end.

(** The task waits for a network answer. *)
Definition awaits_fetch {S A : Type} (t : Task S A) : bool :=
  match t with
  | OnFetch _ _ _ => true
  | _ => false
  end.

Definition returned {S A : Type} (t : Task S A) : bool :=
  match t with
  | Settled (Returned _) => true
  | _ => false
  end.

(** [n] calls of [RedditOauth.fetch] for the same path. *)
Definition same_calls (JS : Runtime) (n : nat) : list (Prog Session Json) :=
  replicate n (RedditOauth_fetch JS (InPath "api/v1/me") no_init).

(** A token endpoint that grants a token for an hour. *)
Definition granting : Env :=
  instant (with_token_endpoint (JToken "access-1" 3600 None)).

(** The [RedditOauth] fields of a session (those of a session without
    credentials for an anonymous one). *)
Definition fields_of (s : Session) : OauthFields :=
  default {| id_ := None; secret := None; username := None; password := None;
             appType := None; token := no_token |} (oauth s).

(** ** Further methods of [src/mod.ts] *)

(** [Array.prototype.join]. *)
Fixpoint join (sep : string) (l : list string) : string :=
  match l with
  | [] => ""
  | [x] => x
  | x :: l' => x +:+ sep +:+ join sep l'
  end.

(** [RedditAnon.info(...fullnames)] ([src/mod.ts], lines 181-188). *)
Definition info (JS : Runtime) (fullnames : list string) : Prog Session (list Item) :=
  s ← this_;
  let url := {| origin := baseUrl s; pathname := "/api/info"; search := [] |} in
  let url := url_set "id" (QStr (join "," fullnames)) url in
  thing ← fetch JS (InUrl url) no_init;
  match thing with
  | JListing children _ => mret children
  | _ => Throw (not_a_listing thing)
  end.

(** [paginated(endpoint)] ([src/mod.ts], lines 160-174): the function of
    [params] and [callback] the listing getters return. *)
Definition paginated (JS : Runtime) (endpoint : string)
  : option (list (string * QVal)) -> bool -> Prog Session (list Item) :=
  fun params callback => paginate JS endpoint params callback.

(** The getters of [RedditAnon.Subreddit] ([src/mod.ts], lines 223-287)
    that end in a listing. *)
Definition subreddit_hot (JS : Runtime) (name : string) :=
  paginated JS ("r/" +:+ name +:+ "/hot").

Definition subreddit_search (JS : Runtime) (name : string)
    (params : option (list (string * QVal))) : Prog Session (list Item) :=
  paginate JS (name +:+ "/search") params false.

(** [RedditOauth.reply(parent, text)] ([src/mod.ts], lines 543-555). *)
Definition reply (JS : Runtime) (parent text : string) : Prog Session Json :=
  fetch JS (InPath "api/comment")
    {| method := Some "POST";
       body := [("api_type", "json"); ("parent", parent); ("text", text)];
       authorization := None |}.

(** [Reddit.info] ([src/mod.ts], lines 68-71): the static getter makes a
    [RedditAnon] of its own, at time [now], and hands out its [info]. *)
Definition Reddit_info (JS : Runtime) (env : Env) (now : Z) (fullnames : list string)
  : Outcome (list Item) * World Session :=
  run env (info JS fullnames) (start (new_RedditAnon now None) now).

(** The form [getNewToken] posts for the session fields [o], when it
    posts one. *)
Definition grant_form (o : OauthFields) : list (string * string) :=
  match appType o with
  | Some web =>
    [("grant_type", "refresh_token"); ("refresh_token", default "" (refresh (token o)))]
  | _ =>
    [("grant_type", "password"); ("username", default "" (username o));
     ("password", default "" (password o))]
  end.

(** Two sessions with the same credentials, user agent, base URL and
    listeners: all that a call may change is the token and the rate-limit
    state. *)
Definition same_identity (s s' : Session) : Prop :=
  userAgent s' = userAgent s /\
  baseUrl s' = baseUrl s /\
  errorListeners s' = errorListeners s /\
  match oauth s, oauth s' with
  | None, None => True
  | Some o, Some o' =>
    id_ o' = id_ o /\ secret o' = secret o /\ username o' = username o /\
    password o' = password o /\ appType o' = appType o
  | _, _ => False
  end.

(** The cursors of the listing pages among the answers to API calls. *)
Fixpoint cursors_of (answers : list (Request * option Response)) : list (option string) :=
  match answers with
  | [] => []
  | (rq, Some res) :: answers' =>
    match is_grant rq, json res with
    | false, Some (JListing _ after) => after :: cursors_of answers'
    | _, _ => cursors_of answers'
    end
  | _ :: answers' => cursors_of answers'
  end.

(** The number of pages a budget of [z] allows: one for every hundred
    begun, and one at least. *)
Definition page_budget (z : Z) : Z := Z.max 1 ((z + 99) / 100).

(** A response with a status that is not a success. *)
Definition failing_response (code : Z) (text : string) : Response :=
  {| ok := false; status := code; statusText := text;
     headers := rate_headers "0" "60"; json := Some JOther |}.

(** An API that is down for maintenance. *)
Definition failing_api (rq : Request) : option Response :=
  Some (failing_response 503 "Service Unavailable").

(** The session [Reddit.create] makes, at time 0, from an access token
    alone. *)
Definition static_session : Session :=
  match create 0 (Some {["accessToken" := VStr "access-0"]}) with
  | Returned s => s
  | Thrown _ => new_RedditAnon 0 None
  end.

(** Options of a web app to which a password was added. *)
Definition password_and_refresh : gmap string JSVal :=
  <["password" := VStr "hunter2"]> (web_options "access-0" 500).

(** The cursors the API calls of a trace ask for, in order. *)
Definition asked (tr : list Event) : list (option QVal) :=
  (fun c => after_of (snd c)) <$> api_calls tr.

(** The query value [searchParams.set("after", after)] leaves. *)
Definition ask_for (after : option string) : option QVal :=
  Some (QStr (default "" after)).

(** The cursor a decoded body holds, if it is a listing. *)
Definition cursor_of (j : Json) : list (option string) :=
  match j with
  | JListing _ after => [after]
  | _ => []
  end.

(** The listing of [three_pages] behind a connection that drops when its
    third page is asked for. *)
Definition line_drops (rq : Request) : option Response :=
  match after_of rq with
  | Some (QStr "t3_p3") => None
  | _ => three_pages rq
  end.

(** A name of letters, digits and underscores, as subreddits and users
    have: what [new URL] keeps as one path segment. *)
Definition name_char (c : Ascii.ascii) : bool :=
  let n := Ascii.nat_of_ascii c in
  ((48 <=? n) && (n <=? 57) || (65 <=? n) && (n <=? 90) ||
   (97 <=? n) && (n <=? 122) || (n =? 95))%nat.

Fixpoint name_chars (s : string) : bool :=
  match s with
  | EmptyString => true
  | String c s' => name_char c && name_chars s'
  end.

Definition plain_name (s : string) : bool :=
  negb (String.eqb s "") && name_chars s.

(** Every API call of the trace goes to [path] at [base]. *)
Definition all_to (base path : string) (tr : list Event) : Prop :=
  List.Forall (fun c => origin (rq_url (snd c)) = base /\
                        pathname (rq_url (snd c)) = path) (api_calls tr).

(* ===================================================================== *)
(** * Part II. Properties                                                 *)
(* ===================================================================== *)

(** ** Running programs *)

Lemma run_bind {S A B : Type} (env : Env) (m : Prog S A) (f : A -> Prog S B) (w : World S) :
  run env (bind m f) w =
  match run env m w with
  | (Returned a, w1) => run env (f a) w1
  | (Thrown e, w1) => (Thrown e, w1)
  end.
Proof.
  revert w. induction m; intros w; cbn; auto.
Qed.

Lemma run_mbind {S A B : Type} (env : Env) (m : Prog S A) (f : A -> Prog S B) (w : World S) :
  run env (m ≫= f) w =
  match run env m w with
  | (Returned a, w1) => run env (f a) w1
  | (Thrown e, w1) => (Thrown e, w1)
  end.
Proof. apply run_bind. Qed.

Lemma extends_step (T tw l X : list Event) :
  T = (tw ++ l) ++ X -> T = tw ++ drop (length tw) T.
Proof. intros ->. now rewrite <- app_assoc, drop_app_length. Qed.

Lemma timeout_ms_nonneg (d : JSNum) : 0 <= timeout_ms d.
Proof.
  destruct d as [|z]; cbn; [lia|].
  destruct (z <=? TIMEOUT_MAX); lia.
Qed.



(** A run only adds to the trace, and the clock does not go back. *)
Lemma run_extends {S A : Type} (env : Env) (p : Prog S A) (w : World S) :
  trace (run env p w).2 = trace w ++ new_events w (run env p w).2 /\
  clock w <= clock (run env p w).2.
Proof.
  unfold new_events. revert w.
  induction p as [a|e|k IH|s k IH|k IH|ev k IH|rq k IH|d k IH]; intros w; cbn.
  - rewrite drop_all, app_nil_r. split; [reflexivity | lia].
  - rewrite drop_all, app_nil_r. split; [reflexivity | lia].
  - apply IH.
  - apply (IH {| this := s; clock := clock w; trace := trace w |}).
  - apply IH.
  - match goal with |- context [run env k ?w1] =>
      destruct (IH w1) as [Ht Hc] end; cbn in Ht, Hc.
    split; [eapply extends_step; exact Ht | exact Hc].
  - match goal with |- context [run env ?q ?w1] =>
      destruct (IH (server env (trace w) (clock w) rq) w1) as [Ht Hc] end;
      cbn in Ht, Hc.
    split; [eapply extends_step; exact Ht | lia].
  - match goal with |- context [run env k ?w1] =>
      destruct (IH w1) as [Ht Hc] end; cbn in Ht, Hc.
    split; [eapply extends_step; exact Ht |].
    pose proof (timeout_ms_nonneg d). lia.
Qed.

Lemma new_events_app {S : Type} (w w' : World S) (l : list Event) :
  trace w' = trace w ++ l -> new_events w w' = l.
Proof. unfold new_events. intros ->. apply drop_app_length. Qed.

Lemma new_events_refl {S : Type} (w : World S) : new_events w w = [].
Proof. unfold new_events. apply drop_all. Qed.

(** Resuming a call as soon as what it waits for is there is running it
    alone: the two interpreters agree on a single call. *)
Lemma run_advance {S A : Type} (env : Env) (p : Prog S A) (w : World S) :
  run env p w =
  match advance env p w with
  | (Settled r, w1) => (r, w1)
  | (OnFetch ready answer k, w1) =>
    run env (k answer) {| this := this w1; clock := Z.max (clock w1) ready; trace := trace w1 |}
  | (OnTimeout ready k, w1) =>
    run env k {| this := this w1; clock := Z.max (clock w1) ready; trace := trace w1 |}
  end.
Proof.
  revert w.
  induction p as [a|e|k IH|s k IH|k IH|ev k IH|rq k IH|d k IH]; intros w; cbn; auto.
  - rewrite Z.max_r; [reflexivity|].
    pose proof (N2Z.is_nonneg (latency env (trace w) (clock w) rq)). lia.
  - rewrite Z.max_r; [reflexivity|].
    pose proof (N2Z.is_nonneg (timerLag env (trace w) (clock w))).
    pose proof (timeout_ms_nonneg d). lia.
Qed.

Lemma fetches_app (l k : list Event) : fetches (l ++ k) = fetches l ++ fetches k.
Proof.
  induction l as [|[] l IH]; cbn; auto. now rewrite IH.
Qed.

Lemma timeouts_app (l k : list Event) : timeouts (l ++ k) = timeouts l ++ timeouts k.
Proof.
  induction l as [|[] l IH]; cbn; auto. now rewrite IH.
Qed.

Lemma callbacks_app (l k : list Event) : callbacks (l ++ k) = callbacks l ++ callbacks k.
Proof.
  induction l as [|[] l IH]; cbn; auto. now rewrite IH.
Qed.

Lemma answers_from_app (env : Env) (pre l k : list Event) :
  answers_from env pre (l ++ k) =
  answers_from env pre l ++ answers_from env (pre ++ l) k.
Proof.
  revert pre. induction l as [|ev l IH]; intros pre; cbn.
  - now rewrite app_nil_r.
  - destruct ev; cbn; rewrite IH, <- app_assoc; reflexivity.
Qed.

Lemma pages_of_app (l k : list (Request * option Response)) :
  pages_of (l ++ k) = pages_of l ++ pages_of k.
Proof.
  induction l as [|[rq [res|]] l IH]; cbn; auto.
  destruct (is_grant rq), (json res) as [[]|]; cbn; auto. now rewrite IH.
Qed.

(** ** [RedditAnon.fetch] *)

Lemma run_emit_error (env : Env) (e : JSError) (w : World Session) :
  run env (emit_error e) w =
  if (errorListeners (this w) =? 0)%nat then (Thrown e, w)
  else (Returned true,
        {| this := this w; clock := clock w;
           trace := trace w ++ [EvEmit "error" (AErr e)] |}).
Proof.
  unfold emit_error. cbn. destruct (errorListeners (this w) =? 0)%nat; reflexivity.
Qed.

(** The program [RedditAnon_fetch] runs as [anon_run] describes. *)
Lemma RedditAnon_fetch_run JS env input options w :
  run env (RedditAnon_fetch JS input options) w = anon_run JS env input options w.
Proof.
  unfold RedditAnon_fetch, anon_run, after_gate, receive, after_send, decoded, rate_of.
  cbn.
  destruct (js_is_zero (reqRemaining (rateLimit (this w)))); cbn;
    match goal with |- context [server env ?a ?b ?c] =>
      destruct (server env a b c) as [res|] end; cbn; try reflexivity;
    destruct (ok res); cbn;
    try (destruct (errorListeners (this w) =? 0)%nat; cbn);
    destruct (json res); reflexivity.
Qed.

Local Arguments Z.mul : simpl never.
Local Arguments Z.add : simpl never.
Local Arguments Z.sub : simpl never.
Local Arguments Z.max : simpl never.
Local Arguments Z.of_N : simpl never.

(** Case analysis on everything a run branches on. *)
Ltac break_run :=
  repeat (cbn;
    match goal with
    | |- context [match ?x with _ => _ end] =>
      lazymatch x with
      | context [run] => fail
      | _ => destruct x eqn:?
      end
    | |- context [if ?x then _ else _] => destruct x eqn:?
    end); cbn.

Ltac simpl_trace :=
  unfold new_events; cbn;
  rewrite <- ?app_assoc; rewrite ?drop_app_length, ?drop_all; cbn.

Lemma anon_run_events JS env input options w :
  let w' := (anon_run JS env input options w).2 in
  fetches (new_events w w') =
    [(clock (after_gate env w), anon_request (this w) input options)] /\
  clock w <= clock (after_gate env w) /\
  oauth (this w') = oauth (this w) /\
  errorListeners (this w') = errorListeners (this w).
Proof.
  unfold anon_run, receive, after_send, after_gate.
  destruct (js_is_zero (reqRemaining (rateLimit (this w)))) eqn:Hz; cbn;
    match goal with |- context [server env ?a ?b ?c] =>
      destruct (server env a b c) as [res|] end; cbn;
    try destruct (ok res); cbn;
    try destruct (errorListeners (this w) =? 0)%nat; cbn;
    simpl_trace;
    repeat split; auto; try lia;
    match goal with |- context [timeout_ms ?d] =>
      pose proof (timeout_ms_nonneg d); lia end.
Qed.


(** ** [RedditOauth.getNewToken] and [RedditOauth.fetch] *)

Lemma token_of_setToken t s o :
  oauth s = Some o -> token_of (setToken t s) = t.
Proof. unfold token_of, setToken. cbn. intros ->. reflexivity. Qed.

(** [getNewToken] touches the token only; the only network call it makes
    goes to the token endpoint, and it starts no timer. *)
Lemma getNewToken_frame env w :
  let w' := (run env getNewToken w).2 in
  rateLimit (this w') = rateLimit (this w) /\
  errorListeners (this w') = errorListeners (this w) /\
  userAgent (this w') = userAgent (this w) /\
  baseUrl (this w') = baseUrl (this w) /\
  api_calls (new_events w w') = [] /\
  timeouts (new_events w w') = [].
Proof.
  unfold getNewToken, api_calls. break_run;
    simpl_trace; repeat split; auto.
Qed.

Arguments getNewToken : simpl never.
Arguments RedditAnon_fetch : simpl never.

(** [RedditOauth.fetch] is the token gate followed by [RedditAnon.fetch]
    with the bearer header of the token then stored. *)
Lemma RedditOauth_fetch_run JS env input options w :
  run env (RedditOauth_fetch JS input options) w =
  if token_stale (clock w) (token_of (this w))
  then
    match run env getNewToken w with
    | (Returned _, w1) =>
      anon_run JS env input
        (with_authorization (Bearer (access (token_of (this w1)))) options) w1
    | (Thrown e, w1) => (Thrown e, w1)
    end
  else
    anon_run JS env input
      (with_authorization (Bearer (access (token_of (this w)))) options) w.
Proof.
  unfold RedditOauth_fetch. cbn.
  destruct (token_stale (clock w) (token_of (this w))).
  - rewrite !run_mbind.
    destruct (run env getNewToken w) as [[r|e] w1]; cbn; [|reflexivity].
    apply RedditAnon_fetch_run.
  - cbn. apply RedditAnon_fetch_run.
Qed.

Lemma fetch_run JS env input options w :
  run env (fetch JS input options) w =
  match oauth (this w) with
  | None => anon_run JS env input options w
  | Some _ => run env (RedditOauth_fetch JS input options) w
  end.
Proof.
  unfold fetch. cbn. destruct (oauth (this w)); [reflexivity|].
  apply RedditAnon_fetch_run.
Qed.

Lemma new_events_trans {S : Type} (w w1 w2 : World S) (l1 l2 : list Event) :
  trace w1 = trace w ++ l1 -> trace w2 = trace w1 ++ l2 ->
  new_events w w2 = l1 ++ l2.
Proof.
  intros H1 H2. apply new_events_app. rewrite H2, H1. now rewrite app_assoc.
Qed.

Lemma anon_run_extends JS env input options w :
  trace (anon_run JS env input options w).2 =
  trace w ++ new_events w (anon_run JS env input options w).2.
Proof.
  rewrite <- RedditAnon_fetch_run. apply run_extends.
Qed.

Lemma api_calls_app (l k : list Event) : api_calls (l ++ k) = api_calls l ++ api_calls k.
Proof. unfold api_calls. now rewrite fetches_app, List.filter_app. Qed.

Lemma grant_calls_app (l k : list Event) :
  grant_calls (l ++ k) = grant_calls l ++ grant_calls k.
Proof. unfold grant_calls. now rewrite fetches_app, List.filter_app. Qed.

Lemma api_calls_fetches (tr : list Event) (c : Z * Request) :
  In c (api_calls tr) -> In c (fetches tr).
Proof. unfold api_calls. rewrite List.filter_In. tauto. Qed.

(** ** The session factory *)

(** C10, as the code has it: [Reddit.create] without options, or with
    options whose only key is a user agent that is not empty, returns an
    anonymous session; any other options object that holds neither a client
    id and secret with a login or refresh token nor an access token makes it
    throw [TypeError("Missing credentials.")], and no session is made. *)
Theorem create_sessions (now : Z) :
  create now None = Returned (new_RedditAnon now None) /\
  oauth (new_RedditAnon now None) = None /\
  (forall o ua, size o = 1%nat -> o !! "userAgent" = Some (VStr ua) -> ua <> "" ->
     create now (Some o) = Returned (new_RedditAnon now (Some ua)) /\
     oauth (new_RedditAnon now (Some ua)) = None) /\
  (forall o, only_userAgent o = false -> has_credentials o = false ->
     create now (Some o) = Thrown (TypeError "Missing credentials.")).
Proof.
  split; [reflexivity|]. split; [reflexivity|]. split.
  - intros o ua Hsize Hua Hne. unfold create. rewrite Hsize, Hua. cbn.
    destruct (String.eqb_spec ua ""); [contradiction|]. cbn. auto.
  - intros o Honly Hcred. unfold create.
    unfold only_userAgent in Honly. rewrite Honly.
    unfold has_credentials in Hcred.
    destruct (truthy (o !! "clientId")), (truthy (o !! "clientSecret")),
      (truthy (o !! "username")), (truthy (o !! "password")),
      (truthy (o !! "refreshToken")), (truthy (o !! "accessToken"));
      cbn in *; congruence.
Qed.

Lemma create_sessions_witness :
  create 0 (Some {["userAgent" := VStr "bot"]}) =
    Returned (new_RedditAnon 0 (Some "bot")) /\
  create 0 (Some {["clientId" := VStr "id"]}) =
    Thrown (TypeError "Missing credentials.").
Proof.
  destruct (create_sessions 0) as (_ & _ & Hua & Hthrow). split.
  - apply (Hua {["userAgent" := VStr "bot"]} "bot"); [reflexivity | reflexivity | discriminate].
  - apply (Hthrow {["clientId" := VStr "id"]}); reflexivity.
Defined.

(** C10 as stated fails: options with the single key [userAgent] do not
    give an anonymous session when the user agent is the empty string. *)
Lemma create_empty_userAgent_throws :
  size ({["userAgent" := VStr ""]} : gmap string JSVal) = 1%nat /\
  create 0 (Some {["userAgent" := VStr ""]}) = Thrown (TypeError "Missing credentials.").
Proof. split; reflexivity. Qed.

Example create_script_example :
  create 0 (Some (<["clientId" := VStr "i"]> (<["clientSecret" := VStr "s"]>
            (<["username" := VStr "u"]> {["password" := VStr "p"]})))) =
  Returned (new_RedditOauth 0 (<["clientId" := VStr "i"]> (<["clientSecret" := VStr "s"]>
            (<["username" := VStr "u"]> {["password" := VStr "p"]})))).
Proof. vm_compute. reflexivity. Qed.

(** ** Requests of the API and requests for a token *)

Lemma json_path_not_token_endpoint (p : string) :
  String.eqb (p +:+ ".json") "/api/v1/access_token" = false.
Proof.
  apply String.eqb_neq. intros H.
  do 21 (destruct p as [|? p]; cbn in H;
         [discriminate H | first [discriminate H | injection H as _ H]]).
Qed.

Lemma anon_request_not_grant s input options :
  is_grant (anon_request s input options) = false.
Proof.
  unfold is_grant, anon_request. cbn.
  rewrite json_path_not_token_endpoint. apply andb_false_r.
Qed.

Lemma anon_run_api_calls JS env input options (w : World Session) :
  api_calls (new_events w (anon_run JS env input options w).2) =
  [(clock (after_gate env w), anon_request (this w) input options)].
Proof.
  destruct (anon_run_events JS env input options w) as (Hf & _).
  unfold api_calls. rewrite Hf. cbn. now rewrite anon_request_not_grant.
Qed.

Lemma anon_run_answer JS env input options (w : World Session) :
  answers_from env (trace w) (new_events w (anon_run JS env input options w).2) =
  [(anon_request (this w) input options,
    server env (trace (after_gate env w)) (clock (after_gate env w))
      (anon_request (this w) input options))].
Proof.
  unfold anon_run, receive, after_send, after_gate.
  destruct (js_is_zero (reqRemaining (rateLimit (this w)))); cbn;
    match goal with |- context [server env ?a ?b ?c] =>
      destruct (server env a b c) as [res|] eqn:Hsrv end; cbn;
    try destruct (ok res); cbn;
    try destruct (errorListeners (this w) =? 0)%nat; cbn;
    simpl_trace; rewrite ?app_nil_r, Hsrv; reflexivity.
Qed.

(** ** The rate-limit gate *)








Example rate_limit_wait_example :
  fetches (trace
    (run (instant bare_api) (RedditAnon_fetch decimal (InPath "r/deno/about") no_init)
       (start (exhausted 3000 (new_RedditAnon 0 None)) 1000)).2) =
  [(3000, anon_request (new_RedditAnon 0 None) (InPath "r/deno/about") no_init)].
Proof. vm_compute. reflexivity. Qed.

(** On a whole second the delay of the earlier class is exact. *)
Example legacy_wait_example :
  fst <$> fetches (trace
    (run (instant bare_api) (Legacy.fetch decimal (InPath "api/v1/me") no_init)
       (start (legacy_waiting 3) 1000)).2) = [3000].
Proof. vm_compute. reflexivity. Qed.

(** ** Rate-limit headers that bind nothing *)







Example missing_headers_example :
  let w1 := (run (instant bare_api)
               (RedditAnon_fetch decimal (InPath "r/deno/about") no_init)
               (start (new_RedditAnon 0 None) 1000)).2 in
  rateLimit (this w1) = {| reqRemaining := Num 0; resetMs := Num 0 |} /\
  timeouts (new_events (at_time 5000 w1)
    (run (instant bare_api) (RedditAnon_fetch decimal (InPath "r/deno/hot") no_init)
       (at_time 5000 w1)).2) = [(5000, Num (-5000))].
Proof. vm_compute. split; reflexivity. Qed.

(** ** The token gate *)

Lemma Legacy_fetch_fresh JS env input options (w : World Legacy.RedditOauth) tk e :
  Legacy.token (this w) = Some tk ->
  Legacy.expiry tk = Some (Num e) ->
  clock w <= e ->
  let w' := (run env (Legacy.fetch JS input options) w).2 in
  exists t rq,
    fetches (new_events w w') = [(t, rq)] /\
    rq_url rq = new_URL input Legacy.baseURL /\
    rq_authorization rq = Some (Bearer (Legacy.accessToken tk)) /\
    clock w <= t /\
    Legacy.token (this w') = Some tk.
Proof.
  intros Htk He Hle.
  assert (Hfresh : (e <? clock w) = false) by (apply Z.ltb_ge; lia).
  pose proof (N2Z.is_nonneg (timerLag env (trace w) (clock w))) as Hlag.
  unfold Legacy.fetch, Legacy.token_stale. cbn. rewrite Htk, He, Hfresh. cbn.
  rewrite ?Htk.
  break_run; simpl_trace;
    try match goal with H : Some _ = Some tk |- _ => injection H as -> end;
    try congruence;
    do 2 eexists; repeat split; try reflexivity; try congruence; try lia;
    match goal with |- context [timeout_ms ?d] =>
      pose proof (timeout_ms_nonneg d); lia end.
Qed.

(** C1, as the code has it: when the stored token of an authenticated
    session has an expiry and the clock has not passed it as the fetch
    starts ([now <= expiry]), no token is requested and the single request
    sent carries that token; its expiry is then not before the time of the
    check.  This holds for [RedditOauth.fetch] of [src/mod.ts] and for the
    [fetch] of the earlier class.  With no expiry, or one the clock has
    passed, [getNewToken] runs first and the request carries whatever token
    is stored after it. *)
Theorem token_gate JS env input options (w : World Session) o :
  oauth (this w) = Some o ->
  let w' := (run env (RedditOauth_fetch JS input options) w).2 in
  (forall e, expiry (token o) = Some (Num e) -> clock w <= e ->
     exists t,
       fetches (new_events w w') =
         [(t, anon_request (this w) input
                (with_authorization (Bearer (access (token o))) options))] /\
       clock w <= t /\
       grant_calls (new_events w w') = [] /\
       token_of (this w') = token o) /\
  (token_stale (clock w) (token o) = true ->
     forall r w1, run env getNewToken w = (Returned r, w1) ->
       exists t,
         api_calls (new_events w1 w') =
           [(t, anon_request (this w1) input
                  (with_authorization (Bearer (access (token_of (this w1)))) options))] /\
         clock w <= t) /\
  (forall (v : World Legacy.RedditOauth) tk e,
     Legacy.token (this v) = Some tk ->
     Legacy.expiry tk = Some (Num e) ->
     clock v <= e ->
     let v' := (run env (Legacy.fetch JS input options) v).2 in
     exists t rq,
       fetches (new_events v v') = [(t, rq)] /\
       rq_url rq = new_URL input Legacy.baseURL /\
       rq_authorization rq = Some (Bearer (Legacy.accessToken tk)) /\
       clock v <= t /\
       Legacy.token (this v') = Some tk).
Proof.
  intros Ho w'. subst w'. rewrite RedditOauth_fetch_run.
  assert (Htok : token_of (this w) = token o) by (unfold token_of; now rewrite Ho).
  rewrite Htok. split; [| split; [| intros v tk e; apply Legacy_fetch_fresh]].
  - intros e He Hle.
    assert (Hfresh : token_stale (clock w) (token o) = false).
    { unfold token_stale. rewrite He. cbn. lia. }
    rewrite Hfresh.
    destruct (anon_run_events JS env input
      (with_authorization (Bearer (access (token o))) options) w) as (Hf & Hc & Hoa & _).
    eexists. split; [exact Hf|]. split; [exact Hc|]. split.
    + unfold grant_calls. rewrite Hf. cbn. now rewrite anon_request_not_grant.
    + unfold token_of. now rewrite Hoa, Ho.
  - intros Hstale r w1 Hrun. rewrite Hstale, Hrun.
    destruct (anon_run_events JS env input
      (with_authorization (Bearer (access (token_of (this w1)))) options) w1)
      as (Hf & Hc & _).
    eexists. split.
    + unfold api_calls. rewrite Hf. cbn. now rewrite anon_request_not_grant.
    + pose proof (run_extends env getNewToken w) as [_ Hclk].
      rewrite Hrun in Hclk. cbn in Hclk. lia.
Qed.

Lemma token_gate_witness :
  exists t,
    fetches (new_events (start (new_RedditOauth 0 (web_options "access-0" 5000)) 1000)
      (run (instant (with_token_endpoint JOther))
         (RedditOauth_fetch decimal (InPath "api/v1/me") no_init)
         (start (new_RedditOauth 0 (web_options "access-0" 5000)) 1000)).2) =
    [(t, anon_request (new_RedditOauth 0 (web_options "access-0" 5000)) (InPath "api/v1/me")
           (with_authorization (Bearer (Some "access-0")) no_init))] /\
    1000 <= t.
Proof.
  destruct (proj1 (token_gate decimal (instant (with_token_endpoint JOther))
              (InPath "api/v1/me") no_init
              (start (new_RedditOauth 0 (web_options "access-0" 5000)) 1000)
              _ eq_refl) 5000 eq_refl) as (t & Hf & Hc & _).
  - cbn. lia.
  - exists t. split; [exact Hf | exact Hc].
Defined.

(** C1 as stated fails.  A token that expires at 1500 is valid when a fetch
    starts at 1000; with no request left until 3000 the request leaves at
    3000 with that token.  And a token that expires at 1000 is attached to a
    request sent at 1000. *)
Lemma expired_token_sent :
  let env := instant (with_token_endpoint (JToken "access-1" 3600 None)) in
  let w := start (exhausted 3000 (new_RedditOauth 0 (web_options "access-0" 1500))) 1000 in
  let w' := (run env (RedditOauth_fetch decimal (InPath "api/v1/me") no_init) w).2 in
  let v := start (new_RedditOauth 0 (web_options "access-0" 1000)) 1000 in
  let v' := (run env (RedditOauth_fetch decimal (InPath "api/v1/me") no_init) v).2 in
  (fetches (new_events w w') =
     [(3000, anon_request (this w) (InPath "api/v1/me")
               (with_authorization (Bearer (Some "access-0")) no_init))] /\
   expiry (token_of (this w')) = Some (Num 1500) /\
   ~ sent_fresh (new_events w w') (token_of (this w'))) /\
  (fetches (new_events v v') =
     [(1000, anon_request (this v) (InPath "api/v1/me")
               (with_authorization (Bearer (Some "access-0")) no_init))] /\
   expiry (token_of (this v')) = Some (Num 1000) /\
   ~ sent_fresh (new_events v v') (token_of (this v'))).
Proof.
  cbv zeta. split; (split; [vm_compute; reflexivity|]); (split; [vm_compute; reflexivity|]).
  - intros H.
    edestruct H as (_ & e & He & Hlt); [vm_compute; left; reflexivity|].
    vm_compute in He. injection He as <-. lia.
  - intros H.
    edestruct H as (_ & e & He & Hlt); [vm_compute; left; reflexivity|].
    vm_compute in He. injection He as <-. lia.
Qed.

(** ** A web session without refresh token *)

Lemma getNewToken_missing_refresh env (w : World Session) o :
  oauth (this w) = Some o -> appType o = Some web ->
  str_truthy (refresh (token o)) = false ->
  run env getNewToken w =
  if (errorListeners (this w) =? 0)%nat then (Thrown refresh_token_missing, w)
  else (Returned (RBool true),
        {| this := this w; clock := clock w;
           trace := trace w ++ [EvEmit "error" (AErr refresh_token_missing)] |}).
Proof.
  intros Ho Happ Href. unfold getNewToken. cbn. rewrite Ho, Happ, Href. cbn.
  destruct (errorListeners (this w) =? 0)%nat; reflexivity.
Qed.

(** C7, as the code has it: on a web session whose token is expired and
    which holds no refresh token, a fetch makes no call to the token
    endpoint and reports [Error("Access token expired; excpected a refresh
    token.")] by emitting an ["error"] event on the session; the error is
    thrown at the call, before anything is sent, exactly when no listener is
    registered for that event. *)
Theorem missing_refresh_token JS env input options (w : World Session) o :
  oauth (this w) = Some o ->
  appType o = Some web ->
  str_truthy (refresh (token o)) = false ->
  token_stale (clock w) (token o) = true ->
  let r := run env (RedditOauth_fetch JS input options) w in
  grant_calls (new_events w r.2) = [] /\
  (errorListeners (this w) = 0%nat -> r = (Thrown refresh_token_missing, w)) /\
  (errorListeners (this w) <> 0%nat ->
     r.1 <> Thrown refresh_token_missing /\
     exists rest,
       new_events w r.2 = EvEmit "error" (AErr refresh_token_missing) :: rest).
Proof.
  intros Ho Happ Href Hstale r. subst r.
  rewrite RedditOauth_fetch_run.
  assert (Htok : token_of (this w) = token o) by (unfold token_of; now rewrite Ho).
  rewrite Htok, Hstale, (getNewToken_missing_refresh env w o Ho Happ Href).
  destruct (errorListeners (this w) =? 0)%nat eqn:Hl.
  - apply Nat.eqb_eq in Hl. cbn. rewrite new_events_refl.
    split; [reflexivity|]. split; [reflexivity | congruence].
  - apply Nat.eqb_neq in Hl.
    set (w1 := {| this := this w; clock := clock w;
                  trace := trace w ++ [EvEmit "error" (AErr refresh_token_missing)] |}).
    set (opts := with_authorization (Bearer (access (token_of (this w1)))) options).
    pose proof (anon_run_extends JS env input opts w1) as Hext.
    destruct (anon_run_events JS env input opts w1) as (Hf & _ & _ & Hls).
    assert (Hnew : new_events w (anon_run JS env input opts w1).2 =
                   EvEmit "error" (AErr refresh_token_missing)
                     :: new_events w1 (anon_run JS env input opts w1).2).
    { apply new_events_app. rewrite Hext. cbn. now rewrite <- app_assoc. }
    split; [| split; [congruence|]].
    + rewrite Hnew. unfold grant_calls. cbn [fetches]. rewrite Hf. cbn.
      now rewrite anon_request_not_grant.
    + split; [| eexists; exact Hnew].
      unfold anon_run, receive, after_send.
      match goal with |- context [server env ?a ?b ?c] =>
        destruct (server env a b c) as [res|] end; cbn; [| discriminate].
      destruct (ok res); cbn.
      * unfold decoded. destruct (json res); discriminate.
      * replace (errorListeners (this (after_gate env w1)))
          with (errorListeners (this w)).
        2:{ unfold after_gate. destruct (js_is_zero _); reflexivity. }
        destruct (errorListeners (this w) =? 0)%nat eqn:Hl0;
          [apply Nat.eqb_eq in Hl0; contradiction|].
        cbn. unfold decoded. destruct (json res); discriminate.
Qed.

Lemma missing_refresh_token_witness :
  run (instant (with_token_endpoint JOther))
      (RedditOauth_fetch decimal (InPath "api/v1/me") no_init)
      (start web_without_refresh 1000) =
  (Thrown refresh_token_missing, start web_without_refresh 1000).
Proof.
  apply (proj1 (proj2 (missing_refresh_token decimal (instant (with_token_endpoint JOther))
           (InPath "api/v1/me") no_init (start web_without_refresh 1000) _
           eq_refl eq_refl eq_refl eq_refl))).
  reflexivity.
Defined.

(** C7 as stated fails: with a listener registered for ["error"], the fetch
    of a web session without refresh token and with an expired token does
    not fail; the error reaches the listener and the call returns. *)
Lemma missing_refresh_token_not_thrown :
  let w := start (on_error web_without_refresh) 1000 in
  let r := run (instant (with_token_endpoint JOther))
             (RedditOauth_fetch decimal (InPath "api/v1/me") no_init) w in
  token_stale (clock w) (token_of (this w)) = true /\
  refresh (token_of (this w)) = None /\
  r.1 = Returned JOther /\
  head (trace r.2) = Some (EvEmit "error" (AErr refresh_token_missing)).
Proof. vm_compute. repeat split; reflexivity. Qed.

(** ** A refused grant *)

Lemma answers_requests env pre tr :
  fst <$> answers_from env pre tr = snd <$> fetches tr.
Proof.
  revert pre. induction tr as [|[] tr IH]; intros pre; cbn; auto.
  now rewrite IH.
Qed.

Lemma answer_is_fetch env pre tr rq a :
  In (rq, a) (answers_from env pre tr) -> exists t, In (t, rq) (fetches tr).
Proof.
  intros Hin.
  assert (H : In rq (fst <$> answers_from env pre tr)).
  { apply in_map_iff. exists (rq, a). auto. }
  rewrite answers_requests in H. apply in_map_iff in H.
  destruct H as ([t rq'] & <- & H). eauto.
Qed.

(** [getNewToken] on a grant that the endpoint answers with an [error]
    member: one call, nothing stored, the error emitted. *)
Lemma getNewToken_error_body env (w : World Session) rq res msg :
  let r := run env getNewToken w in
  In (rq, Some res) (answers_from env (trace w) (new_events w r.2)) ->
  json res = Some (JErrorBody msg) ->
  this r.2 = this w /\
  fetches (new_events w r.2) = [(clock w, rq)] /\
  is_grant rq = true /\
  r.1 = (if (errorListeners (this w) =? 0)%nat
         then Thrown (Error msg) else Returned (RBool true)) /\
  (errorListeners (this w) <> 0%nat ->
   In (EvEmit "error" (AErr (Error msg))) (new_events w r.2)).
Proof.
  unfold getNewToken. break_run; simpl_trace; intros Hin Hj;
    repeat match goal with
    | H : _ \/ _ |- _ => destruct H
    | H : False |- _ => destruct H
    end;
    match goal with H : (_, _) = (_, Some _) |- _ => injection H as <- Hsrv end;
    repeat match goal with
    | H : ?a = Some _, H' : ?a = Some _ |- _ => rewrite H in H'; injection H' as ->
    end;
    try discriminate; try congruence;
    repeat match goal with H : (_ =? _)%nat = _ |- _ =>
      first [apply Nat.eqb_eq in H | apply Nat.eqb_neq in H] end;
    repeat split; cbn; auto; try contradiction.
Qed.

Ltac use_answer :=
  intros Hin Hj;
  repeat match goal with
  | H : _ \/ _ |- _ => destruct H
  | H : False |- _ => destruct H
  end;
  match goal with H : (_, _) = (_, Some _) |- _ => injection H as <- Hsrv end;
  repeat match goal with
  | H : ?a = Some _, H' : ?a = Some _ |- _ => rewrite H in H'; injection H' as ->
  end;
  try discriminate; try congruence.

Lemma Legacy_getOauthToken_error_body env (w : World Legacy.RedditOauth) refresh rq res msg :
  let r := run env (Legacy.getOauthToken refresh) w in
  In (rq, Some res) (answers_from env (trace w) (new_events w r.2)) ->
  json res = Some (JErrorBody msg) ->
  this r.2 = this w /\
  fetches (new_events w r.2) = [(clock w, rq)] /\
  is_grant rq = true /\
  r.1 = Thrown (Error msg).
Proof.
  unfold Legacy.getOauthToken. break_run; simpl_trace; use_answer;
    repeat split; cbn; auto.
Qed.

Lemma anon_run_answers JS env input options (w : World Session) rq a :
  In (rq, a) (answers_from env (trace w)
                (new_events w (anon_run JS env input options w).2)) ->
  is_grant rq = false.
Proof.
  intros Hin. apply answer_is_fetch in Hin. destruct Hin as [t Hin].
  destruct (anon_run_events JS env input options w) as (Hf & _).
  rewrite Hf in Hin. destruct Hin as [[= _ <-]|[]].
  apply anon_request_not_grant.
Qed.

(** [RedditOauth.fetch] on a refused grant, with no listener for
    ["error"]: the call fails with the error of the body. *)
Lemma RedditOauth_fetch_error_body JS env input options (w : World Session) rq res msg :
  errorListeners (this w) = 0%nat ->
  let r := run env (RedditOauth_fetch JS input options) w in
  In (rq, Some res) (answers_from env (trace w) (new_events w r.2)) ->
  is_grant rq = true ->
  json res = Some (JErrorBody msg) ->
  r.1 = Thrown (Error msg) /\
  this r.2 = this w /\
  fetches (new_events w r.2) = [(clock w, rq)].
Proof.
  intros Hl r. subst r. rewrite RedditOauth_fetch_run.
  destruct (token_stale (clock w) (token_of (this w))).
  - pose proof (getNewToken_error_body env w rq res msg) as HG.
    pose proof (run_extends env getNewToken w) as [Ht1 _].
    destruct (run env getNewToken w) as [[g|e] w1]; cbn in *.
    + intros Hin Hg Hj.
      erewrite new_events_trans in Hin; [| exact Ht1 | apply anon_run_extends].
      rewrite answers_from_app, <- Ht1 in Hin. apply in_app_or in Hin.
      destruct Hin as [Hin|Hin].
      * destruct (HG Hin Hj) as (_ & _ & _ & Hout & _).
        rewrite Hl in Hout. discriminate Hout.
      * apply anon_run_answers in Hin. congruence.
    + intros Hin Hg Hj. destruct (HG Hin Hj) as (Hthis & Hf & _ & Hout & _).
      rewrite Hl in Hout. cbn in Hout. injection Hout as ->.
      cbn. repeat split; auto.
  - intros Hin Hg Hj. apply anon_run_answers in Hin. congruence.
Qed.

(** C6, as the code has it: when the token endpoint answers a grant or a
    refresh with a body that has an [error] member, that one call is the
    only one made and the session is left as it was, so no token is stored.
    [getOauthToken] of the earlier class throws [Error(json.error)] to its
    caller.  [getNewToken] emits it as an ["error"] event on the session,
    which throws it exactly when no listener is registered; a first fetch of
    a session without such a listener then fails with that error. *)
Theorem refused_grant :
  (forall env (w : World Session) rq res msg,
     let r := run env getNewToken w in
     In (rq, Some res) (answers_from env (trace w) (new_events w r.2)) ->
     json res = Some (JErrorBody msg) ->
     this r.2 = this w /\
     fetches (new_events w r.2) = [(clock w, rq)] /\
     is_grant rq = true /\
     r.1 = (if (errorListeners (this w) =? 0)%nat
            then Thrown (Error msg) else Returned (RBool true)) /\
     (errorListeners (this w) <> 0%nat ->
      In (EvEmit "error" (AErr (Error msg))) (new_events w r.2))) /\
  (forall env (w : World Legacy.RedditOauth) refresh rq res msg,
     let r := run env (Legacy.getOauthToken refresh) w in
     In (rq, Some res) (answers_from env (trace w) (new_events w r.2)) ->
     json res = Some (JErrorBody msg) ->
     this r.2 = this w /\
     fetches (new_events w r.2) = [(clock w, rq)] /\
     is_grant rq = true /\
     r.1 = Thrown (Error msg)) /\
  (forall JS env input options (w : World Session) rq res msg,
     errorListeners (this w) = 0%nat ->
     let r := run env (RedditOauth_fetch JS input options) w in
     In (rq, Some res) (answers_from env (trace w) (new_events w r.2)) ->
     is_grant rq = true ->
     json res = Some (JErrorBody msg) ->
     r.1 = Thrown (Error msg) /\
     this r.2 = this w /\
     fetches (new_events w r.2) = [(clock w, rq)]).
Proof.
  split; [| split].
  - exact getNewToken_error_body.
  - exact Legacy_getOauthToken_error_body.
  - exact RedditOauth_fetch_error_body.
Qed.

Lemma refused_grant_witness :
  let r := run refusing (RedditOauth_fetch decimal (InPath "api/v1/me") no_init)
             (start (script_session "wrong") 1000) in
  r.1 = Thrown (Error "invalid_grant") /\
  this r.2 = script_session "wrong" /\
  token_of (script_session "wrong") = no_token.
Proof.
  cbv zeta.
  edestruct (proj2 (proj2 refused_grant) decimal refusing (InPath "api/v1/me") no_init
               (start (script_session "wrong") 1000)) as (Hout & Hthis & _).
  - reflexivity.
  - vm_compute. left. reflexivity.
  - reflexivity.
  - reflexivity.
  - split; [exact Hout | split; [exact Hthis | reflexivity]].
Defined.

(** C6 as stated fails: with a listener registered for ["error"], the first
    fetch of a script session with a wrong password does not fail; the
    refusal reaches the listener and the call returns what the API
    answered. *)
Lemma refused_grant_not_thrown :
  let w := start (on_error (script_session "wrong")) 1000 in
  let r := run refusing (RedditOauth_fetch decimal (InPath "api/v1/me") no_init) w in
  r.1 = Returned JOther /\
  trace r.2 =
    [EvFetch 1000 (grant_request (Some "id") (Some "secret")
       [("grant_type", "password"); ("username", "snoo"); ("password", "wrong")]);
     EvEmit "error" (AErr (Error "invalid_grant"));
     EvFetch 1000 (anon_request (script_session "wrong") (InPath "api/v1/me")
                     (with_authorization (Bearer None) no_init));
     EvEmit "error" (AErr (Error "Unauthorized"))] /\
  token_of (this r.2) = no_token.
Proof. vm_compute. repeat split; reflexivity. Qed.

(** ** A refresh grant that succeeds *)

Lemma getNewToken_refreshed env (w : World Session) o rq res j :
  oauth (this w) = Some o ->
  appType o = Some web ->
  let r := run env getNewToken w in
  In (rq, Some res) (answers_from env (trace w) (new_events w r.2)) ->
  json res = Some j ->
  has_error j = Returned false ->
  r.1 = Returned (RJson j) /\
  token_of (this r.2) =
    {| access := json_access_token j;
       refresh := refresh (token o);
       expiry := Some (expiry_after (clock r.2) j) |}.
Proof.
  intros Ho Happ. unfold getNewToken. cbn. rewrite Ho, Happ.
  break_run; simpl_trace; intros Hin Hj Herr;
    repeat match goal with
    | H : _ \/ _ |- _ => destruct H
    | H : False |- _ => destruct H
    end;
    match goal with H : (_, _) = (_, Some _) |- _ => injection H as <- Hsrv end;
    repeat match goal with
    | H : ?a = Some _, H' : ?a = Some _ |- _ => rewrite H in H'; injection H' as ->
    end;
    try discriminate; try congruence;
    unfold token_of, setToken; cbn; rewrite Ho; cbn; auto;
    split; [reflexivity | congruence].
Qed.

Lemma Legacy_getOauthToken_refreshed env (w : World Legacy.RedditOauth) flag rq res j :
  Legacy.appType (this w) = web ->
  let r := run env (Legacy.getOauthToken flag) w in
  In (rq, Some res) (answers_from env (trace w) (new_events w r.2)) ->
  json res = Some j ->
  has_error j = Returned false ->
  r.1 = Returned j /\
  Legacy.token (this r.2) =
    Some {| Legacy.accessToken := json_access_token j;
            Legacy.refreshToken := json_refresh_token j;
            Legacy.expiry := Some (expiry_after (clock r.2) j) |}.
Proof.
  intros Happ. unfold Legacy.getOauthToken. cbn. rewrite Happ.
  break_run; simpl_trace; intros Hin Hj Herr;
    repeat match goal with
    | H : _ \/ _ |- _ => destruct H
    | H : False |- _ => destruct H
    end;
    match goal with H : (_, _) = (_, Some _) |- _ => injection H as <- Hsrv end;
    repeat match goal with
    | H : ?a = Some _, H' : ?a = Some _ |- _ => rewrite H in H'; injection H' as ->
    end;
    try discriminate; try congruence; auto;
    split; [reflexivity | congruence].
Qed.

(** C9, as the code has it: after a successful refresh grant made by
    [getNewToken] ([src/mod.ts]) the stored token has the access token of
    the answer, an expiry of [expires_in] seconds after the answer, and the
    refresh token held before; the [refresh_token] of the answer is not
    used.  [getOauthToken] of the earlier class stores the [refresh_token]
    of the answer instead, or none when the answer has none. *)
Theorem refresh_grant_token :
  (forall env (w : World Session) o rq res j,
     oauth (this w) = Some o ->
     appType o = Some web ->
     let r := run env getNewToken w in
     In (rq, Some res) (answers_from env (trace w) (new_events w r.2)) ->
     json res = Some j ->
     has_error j = Returned false ->
     r.1 = Returned (RJson j) /\
     token_of (this r.2) =
       {| access := json_access_token j;
          refresh := refresh (token o);
          expiry := Some (expiry_after (clock r.2) j) |}) /\
  (forall env (w : World Legacy.RedditOauth) flag rq res j,
     Legacy.appType (this w) = web ->
     let r := run env (Legacy.getOauthToken flag) w in
     In (rq, Some res) (answers_from env (trace w) (new_events w r.2)) ->
     json res = Some j ->
     has_error j = Returned false ->
     r.1 = Returned j /\
     Legacy.token (this r.2) =
       Some {| Legacy.accessToken := json_access_token j;
               Legacy.refreshToken := json_refresh_token j;
               Legacy.expiry := Some (expiry_after (clock r.2) j) |}).
Proof.
  split.
  - exact getNewToken_refreshed.
  - exact Legacy_getOauthToken_refreshed.
Qed.

Lemma refresh_grant_token_witness :
  let env := instant (with_token_endpoint (JToken "access-1" 3600 (Some "refresh-1"))) in
  let r := run env getNewToken (start (new_RedditOauth 0 (web_options "access-0" 500)) 1000) in
  token_of (this r.2) =
    {| access := Some "access-1"; refresh := Some "refresh-0";
       expiry := Some (Num 3601000) |}.
Proof.
  cbv zeta.
  edestruct (proj1 refresh_grant_token
               (instant (with_token_endpoint (JToken "access-1" 3600 (Some "refresh-1"))))
               (start (new_RedditOauth 0 (web_options "access-0" 500)) 1000))
    as [_ Htok].
  - reflexivity.
  - reflexivity.
  - vm_compute. left. reflexivity.
  - reflexivity.
  - reflexivity.
  - rewrite Htok. vm_compute. reflexivity.
Defined.

(** C9 as stated fails for the earlier class: a web session that held
    ["refresh-0"] holds the refresh token of the answer after a successful
    refresh, and none when the answer has none. *)
Lemma legacy_refresh_token_replaced :
  let w := start legacy_web 1000 in
  let r1 := run (instant (with_token_endpoint (JToken "access-1" 3600 (Some "refresh-1"))))
              (Legacy.fetch decimal (InPath "api/v1/me") no_init) w in
  let r2 := run (instant (with_token_endpoint (JToken "access-1" 3600 None)))
              (Legacy.fetch decimal (InPath "api/v1/me") no_init) w in
  Legacy.appType (this w) = web /\
  Legacy.held_refresh (this w) = Some "refresh-0" /\
  length (grant_calls (trace r1.2)) = 1%nat /\
  Legacy.held_refresh (this r1.2) = Some "refresh-1" /\
  Legacy.held_refresh (this r2.2) = None.
Proof. vm_compute. repeat split; reflexivity. Qed.

(** ** Pagination *)

Arguments fetch : simpl never.
Arguments RedditOauth_fetch : simpl never.

(** One round of the loop of [paginate]. *)
Lemma paginate_loop_round JS env fuel cb url limit acc (w : World Session) :
  run env (paginate_loop JS (S fuel) cb url limit acc) w =
  match run env (fetch JS (InUrl url) no_init) w with
  | (Returned (JListing its after), w1) =>
    if str_truthy after && budget_left limit
    then run env (paginate_loop JS fuel cb
                    (url_set "after" (QStr (default "" after)) url)
                    (js_sub limit (Num 100)) (acc ++ its))
           (deliver_page cb its w1)
    else (Returned (acc ++ its), deliver_page cb its w1)
  | (Returned j, w1) => (Thrown (not_a_listing j), w1)
  | (Thrown e, w1) => (Thrown e, w1)
  end.
Proof.
  cbn [paginate_loop]. rewrite run_mbind.
  destruct (run env (fetch JS (InUrl url) no_init) w) as [[j|e] w1]; [|reflexivity].
  destruct j as [its after| | | | |]; try reflexivity.
  rewrite run_mbind. unfold deliver_page, budget_left.
  destruct cb; cbn [run observe mret Prog_ret];
    destruct (str_truthy after); cbn [negb andb]; try reflexivity;
    destruct (js_gt (js_sub limit (Num 100)) (Num 0)); reflexivity.
Qed.

Lemma budget_left_num limit :
  budget_left limit = true -> exists z, limit = Num z /\ 100 < z.
Proof.
  unfold budget_left. destruct limit as [|z]; cbn; [discriminate|].
  intros H. exists z. split; [reflexivity|]. lia.
Qed.

(** The loop of [paginate] is a traversal, whatever rounds it is given
    beyond those [enough] asks for. *)
Lemma paginate_loop_traversal JS env cb fuel :
  forall url limit acc (w : World Session),
    enough fuel limit ->
    exists n,
      Traversal env JS cb url limit acc w
        (run env (paginate_loop JS fuel cb url limit acc) w).1
        (run env (paginate_loop JS fuel cb url limit acc) w).2 n.
Proof.
  induction fuel as [|fuel IH]; intros url limit acc w Hfuel.
  - destruct limit; cbn in Hfuel; lia.
  - rewrite paginate_loop_round.
    destruct (run env (fetch JS (InUrl url) no_init) w) as [[j|e] w1] eqn:Hrun.
    + destruct j as [its after| | | | |];
        try (exists 1%nat; cbn [fst snd]; eapply walk_not_listing; eauto; discriminate).
      destruct (str_truthy after && budget_left limit) eqn:Hgo.
        -- apply andb_prop in Hgo. destruct Hgo as [Hafter Hleft].
           destruct (budget_left_num limit Hleft) as (z & -> & Hz).
           destruct (IH (url_set "after" (QStr (default "" after)) url)
                        (js_sub (Num z) (Num 100)) (acc ++ its)
                        (deliver_page cb its w1)) as [n Hn].
           { cbn in *. lia. }
           exists (S n). eapply walk_next; eauto.
        -- exists 1%nat. cbn. eapply walk_last; eauto.
    + exists 1%nat. cbn. eapply walk_failed; eauto.
Qed.

Lemma enough_loop_fuel limit : enough (loop_fuel limit) limit.
Proof. destruct limit; cbn; lia. Qed.

(** A traversal asks for one page, or for fewer pages than the budget
    holds hundreds. *)
Lemma Traversal_bound JS env cb url limit acc (w : World Session) out w' n :
  Traversal env JS cb url limit acc w out w' n ->
  n = 1%nat \/ exists z, limit = Num z /\ 100 * (Z.of_nat n - 1) < z.
Proof.
  induction 1 as [| url limit acc w its after w1 out w2 n Hrun Hafter Hleft Hrest IH | |];
    auto.
  right. destruct (budget_left_num limit Hleft) as (z & -> & Hz).
  exists z. split; [reflexivity|].
  destruct IH as [-> | (z' & Hz' & Hlt)]; [lia|].
  cbn in Hz'. injection Hz' as <-. lia.
Qed.

(** Rounds beyond those [enough] asks for change nothing. *)
Lemma paginate_loop_fuel JS env cb fuel :
  forall fuel' url limit acc (w : World Session),
    enough fuel limit -> enough fuel' limit ->
    run env (paginate_loop JS fuel cb url limit acc) w =
    run env (paginate_loop JS fuel' cb url limit acc) w.
Proof.
  induction fuel as [|fuel IH]; intros fuel' url limit acc w H1 H2.
  - destruct limit; cbn in H1; lia.
  - destruct fuel' as [|fuel']; [destruct limit; cbn in H2; lia|].
    rewrite !paginate_loop_round.
    destruct (run env (fetch JS (InUrl url) no_init) w) as [[[its after| | | | |]|e] w1];
      try reflexivity.
    destruct (str_truthy after && budget_left limit) eqn:Hgo; [|reflexivity].
    apply andb_prop in Hgo. destruct Hgo as [_ Hleft].
    destruct (budget_left_num limit Hleft) as (z & -> & Hz).
    apply IH; cbn in *; lia.
Qed.

Lemma paginate_run JS env endpoint params cb (w : World Session) :
  run env (paginate JS endpoint params cb) w =
  run env (paginate_loop JS (loop_fuel (initial_limit JS params)) cb
             (listing_url (this w) endpoint params) (initial_limit JS params) []) w.
Proof. reflexivity. Qed.

(** C2, as the code has it: a traversal stops asking for pages exactly when
    the page just fetched has no cursor ([after] null or empty) or the page
    budget is used up; the budget is [params.limit] (100 when it is absent
    or 0) and loses 100 with every page fetched, whatever the page holds;
    otherwise the next request asks for the cursor of that page.  So
    [paginate] asks for one page, or for fewer pages than the budget holds
    hundreds.  Against three pages of 100, 100 and 40 items chained by
    [after], a limit of 1000 gives the 240 items in order after three
    requests, each asking for the cursor of the page before. *)
Theorem paginate_traversal :
  (forall JS env endpoint params cb (w : World Session),
     exists n,
       Traversal env JS cb (listing_url (this w) endpoint params)
         (initial_limit JS params) [] w
         (run env (paginate JS endpoint params cb) w).1
         (run env (paginate JS endpoint params cb) w).2 n /\
       (n = 1%nat \/
        exists z, initial_limit JS params = Num z /\ 100 * (Z.of_nat n - 1) < z)) /\
  (let r := run (instant three_pages)
              (paginate decimal "r/deno/hot" (Some [("limit", QNum (Num 1000))]) false)
              (start (new_RedditAnon 0 None) 0) in
   r.1 = Returned (items_from 0 240) /\
   (after_of ∘ snd) <$> fetches (trace r.2) =
     [None; Some (QStr "t3_p2"); Some (QStr "t3_p3")]).
Proof.
  split.
  - intros JS env endpoint params cb w. rewrite paginate_run.
    destruct (paginate_loop_traversal JS env cb _
                (listing_url (this w) endpoint params) (initial_limit JS params) [] w
                (enough_loop_fuel _)) as [n Hn].
    exists n. split; [exact Hn|]. eapply Traversal_bound; exact Hn.
  - vm_compute. split; reflexivity.
Qed.

(** C2 as stated fails: against pages of 40 items that all have a cursor, a
    limit of 100 ends the traversal after one request, with 40 items
    gathered and a cursor at hand. *)
Lemma paginate_stops_below_limit :
  let r := run (instant short_pages)
             (paginate decimal "r/deno/hot" (Some [("limit", QNum (Num 100))]) false)
             (start (new_RedditAnon 0 None) 0) in
  r.1 = Returned (items_from 0 40) /\
  length (fetches (trace r.2)) = 1%nat /\
  (answers_from (instant short_pages) [] (trace r.2)).*2 =
    [Some (ok_response (rate_headers "59" "60")
             (JListing (items_from 0 40) (Some "t3_next")))] /\
  (length (items_from 0 40) < 100)%nat.
Proof. vm_compute. repeat split; try reflexivity. lia. Qed.

Lemma deliver_page_trace {S : Type} cb its (w : World S) :
  trace (deliver_page cb its w) = trace w ++ callback_events cb its.
Proof.
  unfold deliver_page, callback_events. destruct cb; cbn; [reflexivity|].
  now rewrite app_nil_r.
Qed.

Lemma answers_callback_events env pre cb its :
  answers_from env pre (callback_events cb its) = [].
Proof. destruct cb; reflexivity. Qed.

Lemma no_api_no_pages env pre tr :
  api_calls tr = [] -> pages_of (answers_from env pre tr) = [].
Proof.
  revert pre. unfold api_calls.
  induction tr as [|[t rq| | |] tr IH]; intros pre H; cbn in *; auto.
  destruct (is_grant rq) eqn:Hg; cbn in H; [|discriminate].
  destruct (server env pre t rq) as [res|]; auto.
Qed.

Lemma getNewToken_callbacks env (w : World Session) :
  callbacks (new_events w (run env getNewToken w).2) = [].
Proof.
  unfold getNewToken. break_run; simpl_trace; reflexivity.
Qed.

(** The page and the events of a [RedditAnon.fetch] that returns. *)
Lemma anon_run_page JS env input options (w : World Session) j w1 :
  anon_run JS env input options w = (Returned j, w1) ->
  pages_of (answers_from env (trace w) (new_events w w1)) = page_of j /\
  callbacks (new_events w w1) = [].
Proof.
  unfold anon_run, receive, after_send, after_gate, decoded.
  destruct (js_is_zero (reqRemaining (rateLimit (this w)))); cbn;
    match goal with |- context [server env ?a ?b ?c] =>
      destruct (server env a b c) as [res|] eqn:Hsrv end; cbn; try discriminate;
    destruct (ok res); cbn;
    try (destruct (errorListeners (this w) =? 0)%nat; cbn; try discriminate);
    destruct (json res) as [j'|] eqn:Hj; try discriminate;
    intros [= <- <-]; simpl_trace;
    rewrite ?app_nil_r, Hsrv, anon_request_not_grant, Hj;
    destruct j'; split; reflexivity.
Qed.

(** The page and the events of a [fetch] that returns. *)
Lemma fetch_page JS env input options (w : World Session) j w1 :
  run env (fetch JS input options) w = (Returned j, w1) ->
  pages_of (answers_from env (trace w) (new_events w w1)) = page_of j /\
  callbacks (new_events w w1) = [] /\
  trace w1 = trace w ++ new_events w w1.
Proof.
  intros Hrun.
  assert (Hext : trace w1 = trace w ++ new_events w w1).
  { pose proof (run_extends env (fetch JS input options) w) as [H _].
    now rewrite Hrun in H. }
  split; [| split]; [| | exact Hext]; revert Hrun; rewrite fetch_run;
    destruct (oauth (this w)) as [o|];
    try (intros H; now apply anon_run_page in H);
    rewrite RedditOauth_fetch_run;
    destruct (token_stale (clock w) (token_of (this w)));
    try (intros H; now apply anon_run_page in H);
    pose proof (getNewToken_frame env w) as (_ & _ & _ & _ & Hapi & _);
    pose proof (getNewToken_callbacks env w) as Hcb;
    pose proof (run_extends env getNewToken w) as [Ht1 _];
    destruct (run env getNewToken w) as [[g|e] w0]; cbn in *; try discriminate;
    intros H; pose proof (anon_run_extends JS env input
      (with_authorization (Bearer (access (token_of (this w0)))) options) w0) as Ht2;
    rewrite H in Ht2; cbn in Ht2; apply anon_run_page in H; destruct H as [Hp Hc];
    rewrite (new_events_trans w w0 w1 _ _ Ht1 Ht2).
  - rewrite answers_from_app, pages_of_app, <- Ht1, Hp.
    now rewrite (no_api_no_pages _ _ _ Hapi).
  - now rewrite callbacks_app, Hcb, Hc.
Qed.

(** What a traversal that returns has gathered: the pages the API sent,
    each whole and in the order of the requests. *)
Lemma Traversal_pages JS env cb url limit acc (w : World Session) out w' n :
  Traversal env JS cb url limit acc w out w' n ->
  trace w' = trace w ++ new_events w w' /\
  forall items, out = Returned items ->
    let pages := pages_of (answers_from env (trace w) (new_events w w')) in
    items = acc ++ concat pages /\
    length pages = n /\
    callbacks (new_events w w') = if cb then pages else [].
Proof.
  induction 1 as [ url limit acc w its after w1 Hrun Hstop
                 | url limit acc w its after w1 out w2 n Hrun Hafter Hleft Hrest IH
                 | url limit acc w j w1 Hrun Hj
                 | url limit acc w e w1 Hrun ].
  - apply fetch_page in Hrun. destruct Hrun as (Hp & Hc & Ht).
    assert (Hnew : new_events w (deliver_page cb its w1) =
                   new_events w w1 ++ callback_events cb its).
    { apply new_events_app. now rewrite deliver_page_trace, Ht at 1; rewrite <- app_assoc. }
    split; [now rewrite Hnew, app_assoc, <- Ht, deliver_page_trace|].
    intros items [= <-]. cbv zeta.
    rewrite Hnew, answers_from_app, answers_callback_events, app_nil_r, Hp.
    cbn. rewrite app_nil_r, callbacks_app, Hc. destruct cb; auto.
  - apply fetch_page in Hrun. destruct Hrun as (Hp & Hc & Ht).
    destruct IH as [Ht2 IH].
    assert (Hmid : trace (deliver_page cb its w1) =
                   trace w ++ (new_events w w1 ++ callback_events cb its)).
    { now rewrite deliver_page_trace, Ht at 1; rewrite <- app_assoc. }
    assert (Hnew : new_events w w2 =
                   (new_events w w1 ++ callback_events cb its)
                     ++ new_events (deliver_page cb its w1) w2).
    { eapply new_events_trans; eauto. }
    split; [now rewrite Hnew, app_assoc, <- Hmid|].
    intros items ->. destruct (IH items eq_refl) as (Hitems & Hlen & Hcbs).
    cbv zeta.
    rewrite Hnew, answers_from_app, pages_of_app, <- Hmid.
    rewrite answers_from_app, answers_callback_events, app_nil_r, Hp.
    cbn [page_of app]. split; [| split].
    + rewrite Hitems. cbn. now rewrite <- app_assoc.
    + cbn. now rewrite Hlen.
    + rewrite !callbacks_app, Hc, Hcbs. destruct cb; reflexivity.
  - split; [| discriminate].
    pose proof (run_extends env (fetch JS (InUrl url) no_init) w) as [Ht _].
    now rewrite Hrun in Ht.
  - split; [| discriminate].
    pose proof (run_extends env (fetch JS (InUrl url) no_init) w) as [Ht _].
    now rewrite Hrun in Ht.
Qed.

(** C3: the items [paginate] returns are the pages the API sent during the
    traversal, each page whole and in the order of the requests, and a
    callback is handed each of these pages whole; the limit decides only
    whether another page is asked for.  With pages of 100 items and a limit
    of 150, two requests are made and the 200 items of both pages are
    returned. *)
Theorem pages_delivered_whole :
  (forall JS env endpoint params cb (w : World Session) items w',
     run env (paginate JS endpoint params cb) w = (Returned items, w') ->
     let pages := pages_of (answers_from env (trace w) (new_events w w')) in
     items = concat pages /\
     callbacks (new_events w w') = if cb then pages else []) /\
  (let r := run (instant three_pages)
              (paginate decimal "r/deno/hot" (Some [("limit", QNum (Num 150))]) true)
              (start (new_RedditAnon 0 None) 0) in
   length (fetches (trace r.2)) = 2%nat /\
   r.1 = Returned (items_from 0 100 ++ items_from 100 100) /\
   callbacks (trace r.2) = [items_from 0 100; items_from 100 100]).
Proof.
  split.
  - intros JS env endpoint params cb w items w' Hrun.
    rewrite paginate_run in Hrun.
    destruct (paginate_loop_traversal JS env cb _
                (listing_url (this w) endpoint params) (initial_limit JS params) [] w
                (enough_loop_fuel _)) as [n Hwalk].
    rewrite Hrun in Hwalk. cbn in Hwalk.
    apply Traversal_pages in Hwalk. destruct Hwalk as [_ Hpages].
    destruct (Hpages items eq_refl) as (Hitems & _ & Hcb).
    split; assumption.
  - vm_compute. repeat split; reflexivity.
Qed.

Lemma pages_delivered_whole_witness :
  items_from 0 200 =
  concat (pages_of (answers_from (instant three_pages) []
    (new_events (start (new_RedditAnon 0 None) 0)
       (run (instant three_pages)
          (paginate decimal "r/deno/hot" (Some [("limit", QNum (Num 150))]) true)
          (start (new_RedditAnon 0 None) 0)).2))).
Proof.
  assert (Hrun :
    run (instant three_pages)
      (paginate decimal "r/deno/hot" (Some [("limit", QNum (Num 150))]) true)
      (start (new_RedditAnon 0 None) 0) =
    (Returned (items_from 0 200),
     (run (instant three_pages)
        (paginate decimal "r/deno/hot" (Some [("limit", QNum (Num 150))]) true)
        (start (new_RedditAnon 0 None) 0)).2))
    by (vm_compute; reflexivity).
  exact (proj1 (proj1 pages_delivered_whole decimal (instant three_pages) "r/deno/hot"
                  (Some [("limit", QNum (Num 150))]) true
                  (start (new_RedditAnon 0 None) 0) _ _ Hrun)).
Defined.

(** ** Fetches issued together *)

(** A fetch that finds the token stale starts a grant call and is
    suspended on it, whatever calls are already under way. *)
Lemma advance_stale_fetch JS env input options (w : World Session) o :
  oauth (this w) = Some o ->
  can_grant o = true ->
  token_stale (clock w) (token o) = true ->
  exists ready answer k rq,
    advance env (RedditOauth_fetch JS input options) w =
      (OnFetch ready answer k,
       {| this := this w; clock := clock w;
          trace := trace w ++ [EvFetch (clock w) rq] |}) /\
    is_grant rq = true.
Proof.
  intros Ho Hcan Hstale. unfold can_grant in Hcan.
  unfold RedditOauth_fetch, getNewToken, token_of. cbn. rewrite Ho, Hstale. cbn.
  rewrite Ho. cbn.
  destruct (appType o) as [[|]|]; [| |discriminate]; cbn.
  - apply andb_prop in Hcan. destruct Hcan as [-> ->]. cbn.
    do 4 eexists. split; reflexivity.
  - rewrite Hcan. cbn. do 4 eexists. split; reflexivity.
Qed.

Lemma issue_stale_fetches JS env o (calls : list (Input * RequestInit)) :
  forall w : World Session,
    oauth (this w) = Some o ->
    can_grant o = true ->
    token_stale (clock w) (token o) = true ->
    let r := issue env ((fun c => RedditOauth_fetch JS c.1 c.2) <$> calls) w in
    length (grant_calls (new_events w r.2)) = length calls /\
    api_calls (new_events w r.2) = [] /\
    Forall (fun t => awaits_fetch t = true) r.1 /\
    length r.1 = length calls /\
    this r.2 = this w /\ clock r.2 = clock w /\
    trace r.2 = trace w ++ new_events w r.2.
Proof.
  induction calls as [|[input options] calls IH]; intros w Ho Hcan Hstale.
  - cbn. rewrite new_events_refl, app_nil_r. repeat split; auto.
  - rewrite fmap_cons. cbn [issue].
    destruct (advance_stale_fetch JS env input options w o Ho Hcan Hstale)
      as (ready & answer & k & rq & Hadv & Hg).
    cbn [fst snd] in Hadv |- *. rewrite Hadv.
    remember {| this := this w; clock := clock w;
                trace := trace w ++ [EvFetch (clock w) rq] |} as w1 eqn:Hw1.
    assert (H1 : this w1 = this w /\ clock w1 = clock w /\
                 trace w1 = trace w ++ [EvFetch (clock w) rq]) by (subst w1; auto).
    destruct H1 as (Hthis1 & Hclock1 & Htrace1).
    assert (Ho1 : oauth (this w1) = Some o) by (now rewrite Hthis1).
    assert (Hstale1 : token_stale (clock w1) (token o) = true) by (now rewrite Hclock1).
    specialize (IH w1 Ho1 Hcan Hstale1). cbv zeta in IH.
    destruct (issue env ((fun c => RedditOauth_fetch JS c.1 c.2) <$> calls) w1)
      as [ts w2].
    cbn [fst snd] in IH |- *.
    destruct IH as (Hn & Hapi & Hall & Hlen & Hthis & Hclock & Htrace).
    assert (Hnew : new_events w w2 = [EvFetch (clock w) rq] ++ new_events w1 w2).
    { apply new_events_app. rewrite Htrace, Htrace1. now rewrite <- app_assoc. }
    rewrite Hnew. repeat split.
    + rewrite grant_calls_app, length_app, Hn. unfold grant_calls. cbn. now rewrite Hg.
    + rewrite api_calls_app, Hapi. unfold api_calls. cbn. now rewrite Hg.
    + constructor; [reflexivity | exact Hall].
    + cbn. now rewrite Hlen.
    + congruence.
    + congruence.
    + rewrite Htrace, Htrace1. now rewrite <- app_assoc.
Qed.

(** A fetch on a session that lacks what a grant needs starts no grant
    call: up to its first await it leaves the session and the clock as
    they are. *)
Lemma advance_no_grant JS env input options (w : World Session) o :
  oauth (this w) = Some o ->
  can_grant o = false ->
  let a := advance env (RedditOauth_fetch JS input options) w in
  this a.2 = this w /\ clock a.2 = clock w /\
  exists l, trace a.2 = trace w ++ l /\ grant_calls l = [].
Proof.
  intros Ho Hcan. unfold can_grant in Hcan.
  unfold RedditOauth_fetch, getNewToken, RedditAnon_fetch, emit_error, token_of.
  cbn. rewrite Ho. cbn.
  destruct (token_stale (clock w) (token o)); cbn; rewrite ?Ho; cbn.
  - destruct (appType o) as [[|]|]; cbn.
    + apply andb_false_iff in Hcan.
      destruct Hcan as [-> | ->]; cbn; rewrite ?orb_true_r; cbn;
        repeat split; auto; exists []; now rewrite app_nil_r.
    + rewrite Hcan. cbn.
      destruct (errorListeners (this w) =? 0)%nat; cbn;
        [repeat split; auto; exists []; now rewrite app_nil_r|].
      rewrite ?Ho. cbn.
      destruct (js_is_zero (reqRemaining (rateLimit (this w)))); cbn;
        repeat split; auto; eexists; rewrite <- ?app_assoc; (split; [reflexivity|]);
        unfold grant_calls; cbn; rewrite ?anon_request_not_grant; reflexivity.
    + rewrite ?Ho. cbn.
      destruct (js_is_zero (reqRemaining (rateLimit (this w)))); cbn;
        repeat split; auto; eexists; (split; [reflexivity|]);
        unfold grant_calls; cbn; rewrite ?anon_request_not_grant; reflexivity.
  - destruct (js_is_zero (reqRemaining (rateLimit (this w)))); cbn;
      repeat split; auto; eexists; (split; [reflexivity|]);
      unfold grant_calls; cbn; rewrite ?anon_request_not_grant; reflexivity.
Qed.

Lemma issue_no_grant JS env o (calls : list (Input * RequestInit)) :
  forall w : World Session,
    oauth (this w) = Some o ->
    can_grant o = false ->
    let r := issue env ((fun c => RedditOauth_fetch JS c.1 c.2) <$> calls) w in
    this r.2 = this w /\ clock r.2 = clock w /\
    exists l, trace r.2 = trace w ++ l /\ grant_calls l = [].
Proof.
  induction calls as [|[input options] calls IH]; intros w Ho Hcan.
  - cbn. repeat split; auto. exists []. now rewrite app_nil_r.
  - rewrite fmap_cons. cbn [issue].
    pose proof (advance_no_grant JS env input options w o Ho Hcan) as Hadv.
    cbv zeta in Hadv. cbn [fst snd] in Hadv |- *.
    destruct (advance env (RedditOauth_fetch JS input options) w) as [t w1].
    cbn [fst snd] in Hadv. destruct Hadv as (Hthis1 & Hclock1 & l1 & Htrace1 & Hg1).
    assert (Ho1 : oauth (this w1) = Some o) by (now rewrite Hthis1).
    specialize (IH w1 Ho1 Hcan). cbv zeta in IH.
    destruct (issue env ((fun c => RedditOauth_fetch JS c.1 c.2) <$> calls) w1)
      as [ts w2].
    cbn [fst snd] in IH |- *.
    destruct IH as (Hthis & Hclock & l2 & Htrace & Hg2).
    repeat split; try congruence.
    exists (l1 ++ l2). split.
    + rewrite Htrace, Htrace1. now rewrite <- app_assoc.
    + now rewrite grant_calls_app, Hg1, Hg2.
Qed.

(** C8, as the code has it: a session does not coordinate the fetches that
    ask for a token.  On a session that holds what a grant needs (a web app
    with a refresh token, a script app with user name and password) every
    fetch that finds the token without expiry or expired starts its own
    grant call before it is suspended, so [n] fetches issued together
    against such a session make [n] grant calls, all under way at once, and
    no API call before one of them is answered.  On a session that lacks
    it, fetches issued together start no grant call at all. *)
Theorem concurrent_grants JS env o (calls : list (Input * RequestInit))
    (w : World Session) :
  oauth (this w) = Some o ->
  let r := issue env ((fun c => RedditOauth_fetch JS c.1 c.2) <$> calls) w in
  (can_grant o = true ->
   token_stale (clock w) (token o) = true ->
   length (grant_calls (new_events w r.2)) = length calls /\
   api_calls (new_events w r.2) = [] /\
   Forall (fun t => awaits_fetch t = true) r.1 /\
   length r.1 = length calls) /\
  (can_grant o = false -> grant_calls (new_events w r.2) = []).
Proof.
  intros Ho r. subst r. split.
  - intros Hcan Hstale.
    destruct (issue_stale_fetches JS env o calls w Ho Hcan Hstale)
      as (Hn & Hapi & Hall & Hlen & _).
    repeat split; assumption.
  - intros Hcan.
    destruct (issue_no_grant JS env o calls w Ho Hcan) as (_ & _ & l & Ht & Hg).
    now rewrite (new_events_app _ _ _ Ht).
Qed.

Lemma concurrent_grants_witness :
  length (grant_calls (new_events (start (script_session "hunter2") 1000)
    (issue granting
       ((fun c => RedditOauth_fetch decimal c.1 c.2)
          <$> replicate 10 (InPath "api/v1/me", no_init))
       (start (script_session "hunter2") 1000)).2)) =
  length (replicate 10 (InPath "api/v1/me", no_init)).
Proof.
  assert (Ho : oauth (this (start (script_session "hunter2") 1000)) =
               Some (fields_of (script_session "hunter2")))
    by (vm_compute; reflexivity).
  assert (Hcan : can_grant (fields_of (script_session "hunter2")) = true)
    by (vm_compute; reflexivity).
  assert (Hstale : token_stale (clock (start (script_session "hunter2") 1000))
                     (token (fields_of (script_session "hunter2"))) = true)
    by (vm_compute; reflexivity).
  exact (proj1 (proj1 (concurrent_grants decimal granting _
                         (replicate 10 (InPath "api/v1/me", no_init))
                         (start (script_session "hunter2") 1000) Ho) Hcan Hstale)).
Defined.

(** C8 as stated fails: ten fetches issued together against a script
    session without token make ten grant calls before any is answered, and
    ten in all once every fetch has returned. *)
Lemma ten_fetches_ten_grants :
  let w := start (script_session "hunter2") 1000 in
  let issued := issue granting (same_calls decimal 10) w in
  let done := deliver granting (seq 0 10 ++ seq 0 10) issued.1 issued.2 in
  length (grant_calls (trace issued.2)) = 10%nat /\
  forallb awaits_fetch issued.1 = true /\
  forallb returned done.1 = true /\
  length (grant_calls (trace done.2)) = 10%nat /\
  length (api_calls (trace done.2)) = 10%nat.
Proof. vm_compute. repeat split; reflexivity. Qed.

(* ===================================================================== *)
(** * Part III. Further properties of the code                            *)
(* ===================================================================== *)

(** ** Query strings *)

Lemma search_get_delete_ne k k' l :
  k' <> k -> search_get k' (search_delete k l) = search_get k' l.
Proof.
  intros Hne. induction l as [|[k0 v0] l IH]; cbn; [reflexivity|].
  destruct (String.eqb_spec k0 k) as [->|Hk]; cbn.
  - rewrite IH. destruct (String.eqb_spec k k'); [congruence | reflexivity].
  - now rewrite IH.
Qed.

Lemma search_get_set_eq k v l : search_get k (search_set k v l) = Some v.
Proof.
  induction l as [|[k0 v0] l IH]; cbn.
  - now rewrite String.eqb_refl.
  - destruct (String.eqb_spec k0 k) as [->|Hk]; cbn.
    + now rewrite String.eqb_refl.
    + destruct (String.eqb_spec k0 k); [contradiction | exact IH].
Qed.

Lemma search_get_set_ne k k' v l :
  k' <> k -> search_get k' (search_set k v l) = search_get k' l.
Proof.
  intros Hne. induction l as [|[k0 v0] l IH]; cbn.
  - destruct (String.eqb_spec k k'); [congruence | reflexivity].
  - destruct (String.eqb_spec k0 k) as [->|Hk]; cbn.
    + destruct (String.eqb_spec k k'); [congruence|].
      now apply search_get_delete_ne.
    + now rewrite IH.
Qed.

(** ** What [RedditAnon.fetch] sends and keeps *)

(** X1: every call of [RedditAnon.fetch] makes exactly one network call,
    not before the call starts.  Its URL is the input resolved against the
    base URL with [".json"] added to the path and [raw_json=1] set; every
    other query parameter of the input is kept, and so are the method, the
    body and the [Authorization] of the caller's options; the [User-Agent]
    is the one of the session. *)
Theorem anon_fetch_request JS env input options (w : World Session) :
  exists t rq,
    fetches (new_events w (run env (RedditAnon_fetch JS input options) w).2) = [(t, rq)] /\
    clock w <= t /\
    origin (rq_url rq) = origin (new_URL input (baseUrl (this w))) /\
    pathname (rq_url rq) = pathname (new_URL input (baseUrl (this w))) +:+ ".json" /\
    search_get "raw_json" (search (rq_url rq)) = Some (QStr "1") /\
    (forall k, k <> "raw_json" ->
       search_get k (search (rq_url rq)) =
       search_get k (search (new_URL input (baseUrl (this w))))) /\
    rq_method rq = method options /\
    rq_body rq = body options /\
    rq_authorization rq = authorization options /\
    rq_userAgent rq = Some (userAgent (this w)).
Proof.
  rewrite RedditAnon_fetch_run.
  destruct (anon_run_events JS env input options w) as (Hf & Hc & _).
  exists (clock (after_gate env w)), (anon_request (this w) input options).
  split; [exact Hf|]. split; [exact Hc|].
  unfold anon_request. cbn.
  repeat split; auto using search_get_set_eq.
  intros k Hk. now apply search_get_set_ne.
Qed.

Lemma anon_fetch_request_witness :
  let input := InUrl {| origin := "https://www.reddit.com"; pathname := "/r/deno/hot";
                        search := [("limit", QStr "5")] |} in
  let w := start (new_RedditAnon 0 None) 0 in
  exists t rq,
    fetches (new_events w (run (instant three_pages)
               (RedditAnon_fetch decimal input no_init) w).2) = [(t, rq)] /\
    pathname (rq_url rq) = "/r/deno/hot.json" /\
    search_get "limit" (search (rq_url rq)) = Some (QStr "5").
Proof.
  cbv zeta.
  destruct (anon_fetch_request decimal (instant three_pages)
              (InUrl {| origin := "https://www.reddit.com"; pathname := "/r/deno/hot";
                        search := [("limit", QStr "5")] |})
              no_init (start (new_RedditAnon 0 None) 0))
    as (t & rq & Hf & _ & _ & Hpath & _ & Hkeep & _).
  exists t, rq. split; [exact Hf|]. split; [exact Hpath|].
  rewrite Hkeep by discriminate. reflexivity.
Defined.

(** X2: a response with a status that is not a success does not make
    [RedditAnon.fetch] fail when a listener is registered for ["error"]:
    [Error(statusText)] is emitted, the rate-limit state is read from the
    response and the call ends as the body decodes.  Without a listener the
    call throws [Error(statusText)] and the session is left as it was, so
    the rate-limit headers of that response are not taken up. *)
Theorem anon_fetch_http_error JS env input options (w : World Session) rq res :
  let r := run env (RedditAnon_fetch JS input options) w in
  In (rq, Some res) (answers_from env (trace w) (new_events w r.2)) ->
  ok res = false ->
  (errorListeners (this w) = 0%nat ->
     r.1 = Thrown (Error (statusText res)) /\ this r.2 = this w) /\
  (errorListeners (this w) <> 0%nat ->
     r.1 = decoded res /\
     this r.2 = set_rateLimit (rate_of JS res) (this w) /\
     In (EvEmit "error" (AErr (Error (statusText res)))) (new_events w r.2)).
Proof.
  intros r. subst r. rewrite RedditAnon_fetch_run, anon_run_answer.
  intros [[= _ Hsrv]|[]] Hok. revert Hsrv.
  unfold anon_run, receive, after_send, after_gate.
  destruct (js_is_zero (reqRemaining (rateLimit (this w)))); cbn;
    intros ->; rewrite Hok; cbn;
    (destruct (errorListeners (this w) =? 0)%nat eqn:Hl; cbn;
     [apply Nat.eqb_eq in Hl | apply Nat.eqb_neq in Hl]);
    (split; [intros Hl' | intros Hl']); try contradiction; try congruence;
    repeat split; simpl_trace; auto.
Qed.

Lemma anon_fetch_http_error_witness :
  let w := start (new_RedditAnon 0 None) 1000 in
  let r := run (instant failing_api)
             (RedditAnon_fetch decimal (InPath "r/deno/about") no_init) w in
  r.1 = Thrown (Error "Service Unavailable") /\ this r.2 = this w.
Proof.
  cbv zeta.
  edestruct (anon_fetch_http_error decimal (instant failing_api) (InPath "r/deno/about")
               no_init (start (new_RedditAnon 0 None) 1000)) as [Hnone _].
  - vm_compute. left. reflexivity.
  - reflexivity.
  - apply Hnone. reflexivity.
Defined.

Lemma set_rateLimit_same (s : Session) : set_rateLimit (rateLimit s) s = s.
Proof. destruct s. reflexivity. Qed.

(** X3: a call of [RedditAnon.fetch] changes nothing of the session but the
    rate-limit state.  After a response with a success status that state is
    what the two headers of the response read as, whatever it was before,
    and the call ends as the body decodes; when the network call itself
    fails the call throws and the state stays. *)
Theorem anon_fetch_rate_state JS env input options (w : World Session) :
  let r := run env (RedditAnon_fetch JS input options) w in
  this r.2 = set_rateLimit (rateLimit (this r.2)) (this w) /\
  (forall rq res,
     In (rq, Some res) (answers_from env (trace w) (new_events w r.2)) ->
     ok res = true ->
     r.1 = decoded res /\ rateLimit (this r.2) = rate_of JS res) /\
  (forall rq,
     In (rq, None) (answers_from env (trace w) (new_events w r.2)) ->
     r.1 = Thrown (TypeError "fetch failed") /\
     rateLimit (this r.2) = rateLimit (this w)).
Proof.
  intros r. subst r. rewrite RedditAnon_fetch_run, anon_run_answer.
  assert (Hthis : this (after_gate env w) = this w).
  { unfold after_gate. destruct (js_is_zero _); reflexivity. }
  unfold anon_run, receive, after_send.
  destruct (server env (trace (after_gate env w)) (clock (after_gate env w))
              (anon_request (this w) input options)) as [res|]; cbn.
  - destruct (ok res) eqn:Hok; [| destruct (errorListeners _ =? 0)%nat]; cbn;
      rewrite ?Hthis; (split; [now rewrite ?set_rateLimit_same|]);
      (split; [intros rq res' [[= _ <-]|[]] Hok'; try congruence; auto
              | intros rq [[=]|[]]]).
  - rewrite Hthis. split; [now rewrite set_rateLimit_same|].
    split; [intros rq res [[=]|[]] | intros rq _; auto].
Qed.

Lemma anon_fetch_rate_state_witness :
  let w := start (exhausted 3000 (new_RedditAnon 0 None)) 1000 in
  let r := run (instant three_pages)
             (RedditAnon_fetch decimal (InPath "r/deno/hot") no_init) w in
  rateLimit (this r.2) = {| reqRemaining := Num 59; resetMs := Num 60 |}.
Proof.
  cbv zeta.
  edestruct (proj1 (proj2 (anon_fetch_rate_state decimal (instant three_pages)
               (InPath "r/deno/hot") no_init
               (start (exhausted 3000 (new_RedditAnon 0 None)) 1000)))) as [_ Hrate].
  - vm_compute. left. reflexivity.
  - reflexivity.
  - rewrite Hrate. vm_compute. reflexivity.
Defined.

(** ** Tokens: what is asked for, stored and used again *)

(** A grant that the endpoint answers with an object without [error]. *)
Lemma getNewToken_granted env (w : World Session) o rq res j :
  oauth (this w) = Some o ->
  let r := run env getNewToken w in
  In (rq, Some res) (answers_from env (trace w) (new_events w r.2)) ->
  json res = Some j ->
  has_error j = Returned false ->
  r.1 = Returned (RJson j) /\
  can_grant o = true /\
  rq = grant_request (id_ o) (secret o) (grant_form o) /\
  fetches (new_events w r.2) = [(clock w, rq)] /\
  clock r.2 = clock w + Z.of_N (latency env (trace w) (clock w) rq) /\
  this r.2 =
    setToken {| access := json_access_token j;
                refresh := match appType o with
                           | Some web => refresh (token o)
                           | _ => None
                           end;
                expiry := Some (expiry_after (clock r.2) j) |} (this w).
Proof.
  intros Ho. unfold getNewToken, can_grant, grant_form, token_of. cbn. rewrite Ho.
  break_run; simpl_trace; intros Hin Hj Herr;
    repeat match goal with
    | H : _ \/ _ |- _ => destruct H
    | H : False |- _ => destruct H
    end;
    match goal with H : (_, _) = (_, Some _) |- _ => injection H as <- Hsrv end;
    repeat match goal with
    | H : ?a = Some _, H' : ?a = Some _ |- _ => rewrite H in H'; injection H' as ->
    end;
    try discriminate; try congruence;
    rewrite ?Ho; cbn;
    repeat match goal with
    | H : negb _ = false |- _ => apply negb_false_iff in H
    | H : _ || _ = false |- _ => apply orb_false_elim in H; destruct H
    end;
    repeat split; auto; try congruence;
    try (apply andb_true_intro; split; assumption).
Qed.

Lemma getNewToken_no_app_type env (w : World Session) o :
  oauth (this w) = Some o -> appType o = None ->
  run env getNewToken w = (Returned RUndefined, w).
Proof.
  intros Ho Happ. unfold getNewToken. cbn. now rewrite Ho, Happ.
Qed.

(** X4: a session without app type, as [Reddit.create] makes from an access
    token alone, can never renew its token: whatever the expiry of the
    token, a fetch makes no call to the token endpoint, sends its one
    request with the stored access token as bearer, and leaves the token as
    it is. *)
Theorem static_token_fetch JS env input options (w : World Session) o :
  oauth (this w) = Some o ->
  appType o = None ->
  let r := run env (RedditOauth_fetch JS input options) w in
  (exists t,
     fetches (new_events w r.2) =
       [(t, anon_request (this w) input
              (with_authorization (Bearer (access (token o))) options))] /\
     clock w <= t) /\
  grant_calls (new_events w r.2) = [] /\
  token_of (this r.2) = token o.
Proof.
  intros Ho Happ r. subst r. rewrite RedditOauth_fetch_run.
  assert (Htok : token_of (this w) = token o) by (unfold token_of; now rewrite Ho).
  rewrite (getNewToken_no_app_type env w o Ho Happ), Htok.
  assert (H : forall b : bool,
    (if b
     then anon_run JS env input
            (with_authorization (Bearer (access (token o))) options) w
     else anon_run JS env input
            (with_authorization (Bearer (access (token o))) options) w) =
    anon_run JS env input (with_authorization (Bearer (access (token o))) options) w)
    by (intros []; reflexivity).
  rewrite H.
  destruct (anon_run_events JS env input
    (with_authorization (Bearer (access (token o))) options) w) as (Hf & Hc & Hoa & _).
  split; [eexists; split; [exact Hf | exact Hc]|]. split.
  - unfold grant_calls. rewrite Hf. cbn. now rewrite anon_request_not_grant.
  - unfold token_of. now rewrite Hoa, Ho.
Qed.

Lemma static_token_fetch_witness :
  let r := run granting (RedditOauth_fetch decimal (InPath "api/v1/me") no_init)
             (start static_session 1000) in
  grant_calls (new_events (start static_session 1000) r.2) = [] /\
  token_of (this r.2) = token (fields_of static_session).
Proof.
  cbv zeta.
  assert (Ho : oauth (this (start static_session 1000)) =
               Some (fields_of static_session)) by (vm_compute; reflexivity).
  assert (Happ : appType (fields_of static_session) = None)
    by (vm_compute; reflexivity).
  exact (proj2 (static_token_fetch decimal granting (InPath "api/v1/me") no_init
                  (start static_session 1000) _ Ho Happ)).
Defined.

Lemma anon_request_setToken tk s input options :
  anon_request (setToken tk s) input options = anon_request s input options.
Proof. reflexivity. Qed.

(** A grant that the endpoint answers with a body that is no object. *)
Lemma getNewToken_not_object env (w : World Session) o res j e :
  oauth (this w) = Some o ->
  can_grant o = true ->
  server env (trace w) (clock w) (grant_request (id_ o) (secret o) (grant_form o)) = Some res ->
  json res = Some j ->
  has_error j = Thrown e ->
  let r := run env getNewToken w in
  r.1 = Thrown e /\
  this r.2 = this w /\
  fetches (new_events w r.2) = [(clock w, grant_request (id_ o) (secret o) (grant_form o))].
Proof.
  intros Ho Hcan Hsrv Hj Herr. revert Hcan Hsrv.
  unfold getNewToken, can_grant, grant_form. cbn. rewrite Ho.
  destruct (appType o) as [[|]|]; cbn; try discriminate; intros Hcan Hsrv.
  - apply andb_prop in Hcan. destruct Hcan as [Hu Hp]. rewrite Hu, Hp. cbn.
    rewrite Hsrv. cbn. rewrite Hj. cbn. rewrite Herr. cbn.
    simpl_trace. auto.
  - rewrite Hcan. cbn. rewrite Hsrv. cbn. rewrite Hj. cbn. rewrite Herr. cbn.
    simpl_trace. auto.
Qed.

(** X5: the fetch of a session whose token has no expiry or is expired,
    when the token endpoint answers with an object without [error], makes two
    network calls: the [POST] of the form of its app type (the login for a
    script app, the held refresh token for a web app) with the client id and
    secret as basic authorization, and then the request itself with the
    granted access token as bearer.  When the answer is no object ([null],
    a number, a string), ["error" in json] throws: the fetch throws that
    [TypeError] after the grant call alone, and the session is as it was. *)
Theorem fetch_after_grant JS env input options (w : World Session) o res j :
  oauth (this w) = Some o ->
  can_grant o = true ->
  token_stale (clock w) (token o) = true ->
  server env (trace w) (clock w) (grant_request (id_ o) (secret o) (grant_form o)) = Some res ->
  json res = Some j ->
  let r := run env (RedditOauth_fetch JS input options) w in
  (has_error j = Returned false ->
   exists t,
     fetches (new_events w r.2) =
       [(clock w, grant_request (id_ o) (secret o) (grant_form o));
        (t, anon_request (this w) input
              (with_authorization (Bearer (json_access_token j)) options))] /\
     clock w <= t) /\
  (forall e, has_error j = Thrown e ->
     r.1 = Thrown e /\
     this r.2 = this w /\
     fetches (new_events w r.2) =
       [(clock w, grant_request (id_ o) (secret o) (grant_form o))]).
Proof.
  intros Ho Hcan Hstale Hsrv Hj r. subst r.
  rewrite RedditOauth_fetch_run.
  assert (Htok : token_of (this w) = token o) by (unfold token_of; now rewrite Ho).
  rewrite Htok, Hstale.
  split; [intros Herr | intros e Herr;
    destruct (getNewToken_not_object env w o res j e Ho Hcan Hsrv Hj Herr)
      as (Hout & Hthis & Hf);
    destruct (run env getNewToken w) as [g w1]; cbn in *; subst g; auto].
  pose proof (getNewToken_granted env w o
                (grant_request (id_ o) (secret o) (grant_form o)) res j Ho) as HG.
  pose proof (run_extends env getNewToken w) as [Ht1 Hc1].
  assert (Hin : In (grant_request (id_ o) (secret o) (grant_form o), Some res)
                   (answers_from env (trace w)
                      (new_events w (run env getNewToken w).2))).
  { revert Hcan Hsrv. unfold getNewToken, can_grant, grant_form. cbn. rewrite Ho.
    destruct (appType o) as [[|]|]; cbn; try discriminate; intros Hcan Hsrv.
    - apply andb_prop in Hcan. destruct Hcan as [Hu Hp]. rewrite Hu, Hp. cbn.
      rewrite Hsrv. cbn. rewrite Hj. cbn. rewrite Herr.
      break_run; simpl_trace; rewrite Hsrv; now left.
    - rewrite Hcan. cbn.
      rewrite Hsrv. cbn. rewrite Hj. cbn. rewrite Herr.
      break_run; simpl_trace; rewrite Hsrv; now left. }
  cbv zeta in HG. destruct (HG Hin Hj Herr) as (Hout & _ & _ & Hf & _ & Hthis).
  destruct (run env getNewToken w) as [g w1]. cbn in *. subst g.
  erewrite new_events_trans; [| exact Ht1 | apply anon_run_extends].
  rewrite fetches_app, Hf.
  match goal with |- context [anon_run JS env input ?opts w1] =>
    destruct (anon_run_events JS env input opts w1) as (Hf2 & Hc2 & _) end.
  rewrite Hf2. exists (clock (after_gate env w1)). split; [| lia].
  cbn. rewrite Hthis. rewrite (token_of_setToken _ _ o Ho). reflexivity.
Qed.

Lemma fetch_after_grant_witness :
  let w := start (script_session "hunter2") 1000 in
  let r := run granting (RedditOauth_fetch decimal (InPath "api/v1/me") no_init) w in
  exists t,
    fetches (new_events w r.2) =
      [(1000, grant_request (Some "id") (Some "secret")
                [("grant_type", "password"); ("username", "snoo");
                 ("password", "hunter2")]);
       (t, anon_request (script_session "hunter2") (InPath "api/v1/me")
             (with_authorization (Bearer (Some "access-1")) no_init))] /\
    1000 <= t.
Proof.
  cbv zeta.
  assert (Ho : oauth (this (start (script_session "hunter2") 1000)) =
               Some (fields_of (script_session "hunter2")))
    by (vm_compute; reflexivity).
  exact (proj1 (fetch_after_grant decimal granting (InPath "api/v1/me") no_init
           (start (script_session "hunter2") 1000) _
           (ok_response ∅ (JToken "access-1" 3600 None))
           (JToken "access-1" 3600 None) Ho eq_refl eq_refl eq_refl eq_refl) eq_refl).
Defined.

Example grant_answered_null_example :
  let w := start (script_session "hunter2") 1000 in
  let r := run (instant (with_token_endpoint JNull))
             (RedditOauth_fetch decimal (InPath "api/v1/me") no_init) w in
  r.1 = Thrown (TypeError "Cannot use 'in' operator to search for 'error' in null") /\
  this r.2 = this w /\
  length (fetches (trace r.2)) = 1%nat.
Proof. vm_compute. repeat split; reflexivity. Qed.

(** X6: a granted token is used again.  Once [getNewToken] has stored the
    token of a grant answered with [expires_in = e], every fetch started up
    to [e] seconds after the token was stored makes no call to the token
    endpoint and sends its one request with the granted access token; a
    fetch started later finds the token stale. *)
Theorem granted_token_reused JS env (w : World Session) o rq res a e rt :
  oauth (this w) = Some o ->
  let g := run env getNewToken w in
  In (rq, Some res) (answers_from env (trace w) (new_events w g.2)) ->
  json res = Some (JToken a e rt) ->
  forall c,
    clock g.2 <= c ->
    (c <= clock g.2 + e * 1000 ->
       forall input options,
         let r := run env (RedditOauth_fetch JS input options) (at_time c g.2) in
         grant_calls (new_events (at_time c g.2) r.2) = [] /\
         exists t,
           fetches (new_events (at_time c g.2) r.2) =
             [(t, anon_request (this w) input
                    (with_authorization (Bearer (Some a)) options))]) /\
    (clock g.2 + e * 1000 < c -> token_stale c (token_of (this g.2)) = true).
Proof.
  intros Ho g Hin Hj c Hc. subst g.
  destruct (getNewToken_granted env w o rq res (JToken a e rt) Ho Hin Hj eq_refl)
    as (_ & _ & _ & _ & _ & Hthis).
  set (w1 := (run env getNewToken w).2) in *.
  assert (Htok : token_of (this w1) =
                 {| access := Some a;
                    refresh := match appType o with
                               | Some web => refresh (token o)
                               | _ => None
                               end;
                    expiry := Some (Num (clock w1 + e * 1000)) |}).
  { rewrite Hthis. now rewrite (token_of_setToken _ _ o Ho). }
  split.
  - intros Hle input options r. subst r. rewrite RedditOauth_fetch_run.
    cbn [this clock at_time]. rewrite Htok.
    assert (Hfresh : token_stale c
      {| access := Some a;
         refresh := match appType o with
                    | Some web => refresh (token o)
                    | _ => None
                    end;
         expiry := Some (Num (clock w1 + e * 1000)) |} = false).
    { unfold token_stale. cbn. lia. }
    rewrite Hfresh. cbn [access].
    destruct (anon_run_events JS env input
      (with_authorization (Bearer (Some a)) options) (at_time c w1)) as (Hf & _).
    split.
    + unfold grant_calls. rewrite Hf. cbn. now rewrite anon_request_not_grant.
    + eexists. rewrite Hf. cbn [this at_time]. rewrite Hthis. reflexivity.
  - intros Hlt. rewrite Htok. unfold token_stale. cbn. lia.
Qed.

Lemma granted_token_reused_witness :
  let w := start (script_session "hunter2") 1000 in
  let g := run granting getNewToken w in
  let r := run granting (RedditOauth_fetch decimal (InPath "api/v1/me") no_init)
             (at_time 3601000 g.2) in
  grant_calls (new_events (at_time 3601000 g.2) r.2) = [].
Proof.
  cbv zeta.
  assert (Ho : oauth (this (start (script_session "hunter2") 1000)) =
               Some (fields_of (script_session "hunter2")))
    by (vm_compute; reflexivity).
  assert (Hin : In (grant_request (Some "id") (Some "secret")
                      [("grant_type", "password"); ("username", "snoo");
                       ("password", "hunter2")],
                    Some (ok_response ∅ (JToken "access-1" 3600 None)))
                   (answers_from granting
                      (trace (start (script_session "hunter2") 1000))
                      (new_events (start (script_session "hunter2") 1000)
                         (run granting getNewToken
                            (start (script_session "hunter2") 1000)).2)))
    by (vm_compute; left; reflexivity).
  assert (Hc : clock (run granting getNewToken
                        (start (script_session "hunter2") 1000)).2 <= 3601000)
    by (vm_compute; discriminate).
  destruct (granted_token_reused decimal granting
              (start (script_session "hunter2") 1000) _ _ _
              "access-1" 3600 None Ho Hin eq_refl 3601000 Hc) as [Hreuse _].
  apply Hreuse. vm_compute. discriminate.
Defined.

(** ** The session factory, in full *)

Lemma truthy_is_Some (v : option JSVal) : truthy v = true -> is_Some v.
Proof. destruct v; [eauto | discriminate]. Qed.

Lemma two_truthy_size (o : gmap string JSVal) (k1 k2 : string) :
  k1 <> k2 -> truthy (o !! k1) = true -> truthy (o !! k2) = true ->
  (size o =? 1)%nat = false.
Proof.
  intros Hne H1 H2. apply truthy_is_Some in H1. apply truthy_is_Some in H2.
  apply Nat.eqb_neq. intros Hsize.
  pose proof (map_size_delete_Some k1 o H1) as Hdel. rewrite Hsize in Hdel. cbn in Hdel.
  apply map_size_empty_inv in Hdel.
  destruct H2 as [v Hv].
  assert (Hlook : delete k1 o !! k2 = Some v) by (now rewrite lookup_delete_ne).
  rewrite Hdel, lookup_empty in Hlook. discriminate.
Qed.

(** A client id and secret with a login or a refresh token are enough for
    [Reddit.create]. *)
Lemma create_client_credentials (now : Z) (o : gmap string JSVal) :
  truthy (o !! "clientId") && truthy (o !! "clientSecret") = true ->
  truthy (o !! "username") && truthy (o !! "password") || truthy (o !! "refreshToken") = true ->
  create now (Some o) = Returned (new_RedditOauth now o).
Proof.
  intros Hc Hl.
  assert (Hsize : (size o =? 1)%nat = false).
  { apply andb_prop in Hc. destruct Hc as [H1 H2].
    now apply (two_truthy_size o "clientId" "clientSecret"). }
  unfold create. rewrite Hsize, Hc. cbn.
  destruct (truthy (o !! "username") && truthy (o !! "password")); [reflexivity|].
  cbn in Hl. now rewrite Hl.
Qed.

(** X7: [Reddit.create] in full, for options that are given.  A client id
    and secret with a login or a refresh token give an authenticated
    session, whatever else the options hold, a user agent included.  An
    access token gives one only when the client id or the secret is
    missing: with both present and neither login nor refresh token the
    access token is not looked at and [create] throws. *)
Theorem create_authenticated (now : Z) (o : gmap string JSVal) :
  (truthy (o !! "clientId") && truthy (o !! "clientSecret") = true ->
   truthy (o !! "username") && truthy (o !! "password") || truthy (o !! "refreshToken") = true ->
   create now (Some o) = Returned (new_RedditOauth now o)) /\
  (truthy (o !! "clientId") && truthy (o !! "clientSecret") = false ->
   truthy (o !! "accessToken") = true ->
   create now (Some o) = Returned (new_RedditOauth now o)) /\
  (truthy (o !! "clientId") && truthy (o !! "clientSecret") = true ->
   truthy (o !! "username") && truthy (o !! "password") || truthy (o !! "refreshToken") = false ->
   create now (Some o) = Thrown (TypeError "Missing credentials.")).
Proof.
  assert (Hclient : truthy (o !! "clientId") && truthy (o !! "clientSecret") = true ->
                    (size o =? 1)%nat = false).
  { intros H. apply andb_prop in H. destruct H as [H1 H2].
    now apply (two_truthy_size o "clientId" "clientSecret"). }
  assert (Haccess : truthy (o !! "accessToken") = true ->
                    (size o =? 1)%nat && truthy (o !! "userAgent") = false).
  { intros H. destruct (truthy (o !! "userAgent")) eqn:Hua;
      [| apply andb_false_r].
    now rewrite (two_truthy_size o "accessToken" "userAgent"). }
  unfold create. repeat split.
  - apply create_client_credentials.
  - intros Hc Ha. now rewrite (Haccess Ha), Hc, Ha.
  - intros Hc Hl. rewrite (Hclient Hc), Hc. cbn.
    apply orb_false_elim in Hl. destruct Hl as [-> ->]. reflexivity.
Qed.

Lemma create_authenticated_witness :
  create 0 (Some (<["clientId" := VStr "id"]> (<["clientSecret" := VStr "secret"]>
                  {["accessToken" := VStr "access-0"]}))) =
  Thrown (TypeError "Missing credentials.").
Proof.
  apply (proj2 (proj2 (create_authenticated 0 _))); reflexivity.
Defined.

(** X8: a password decides the app type.  Options with a client id and
    secret, a refresh token and a password but no user name are accepted by
    [Reddit.create]; the session is a script app, not a web app, and every
    fetch that finds its token without expiry or expired throws
    [Error("Username and password are required for script apps")] without
    any network call, the refresh token staying unused. *)
Theorem password_without_username (now : Z) (o : gmap string JSVal) :
  truthy (o !! "clientId") && truthy (o !! "clientSecret") = true ->
  truthy (o !! "refreshToken") = true ->
  truthy (o !! "password") = true ->
  truthy (o !! "username") = false ->
  create now (Some o) = Returned (new_RedditOauth now o) /\
  appType (fields_of (new_RedditOauth now o)) = Some script /\
  forall JS env input options c,
    token_stale c (token_of (new_RedditOauth now o)) = true ->
    run env (RedditOauth_fetch JS input options) (start (new_RedditOauth now o) c) =
    (Thrown (Error "Username and password are required for script apps"),
     start (new_RedditOauth now o) c).
Proof.
  intros Hc Hrt Hp Hu.
  split; [| split].
  - apply create_client_credentials; [exact Hc|].
    rewrite Hrt. apply orb_true_r.
  - cbn. now rewrite Hp.
  - intros JS env input options c Hstale. rewrite RedditOauth_fetch_run.
    cbn [this clock start]. rewrite Hstale.
    unfold getNewToken. cbn. rewrite Hp. cbn.
    assert (Huser : str_truthy (as_str (o !! "username")) = false).
    { destruct (o !! "username") as [[]|]; cbn in *; auto. }
    rewrite Huser. reflexivity.
Qed.

Lemma password_without_username_witness :
  run granting (RedditOauth_fetch decimal (InPath "api/v1/me") no_init)
    (start (new_RedditOauth 0 password_and_refresh) 1000) =
  (Thrown (Error "Username and password are required for script apps"),
   start (new_RedditOauth 0 password_and_refresh) 1000).
Proof.
  assert (H1 : truthy (password_and_refresh !! "clientId") &&
               truthy (password_and_refresh !! "clientSecret") = true)
    by (vm_compute; reflexivity).
  assert (H2 : truthy (password_and_refresh !! "refreshToken") = true)
    by (vm_compute; reflexivity).
  assert (H3 : truthy (password_and_refresh !! "password") = true)
    by (vm_compute; reflexivity).
  assert (H4 : truthy (password_and_refresh !! "username") = false)
    by (vm_compute; reflexivity).
  apply (proj2 (proj2 (password_without_username 0 password_and_refresh H1 H2 H3 H4))).
  vm_compute. reflexivity.
Defined.

(** ** Pagination: how many requests, which cursors, which pages *)

Lemma api_calls_callback_events cb its : api_calls (callback_events cb its) = [].
Proof. destruct cb; reflexivity. Qed.

(** The API calls of one call of [fetch]: one at most, for the URL given,
    with [".json"] and [raw_json=1]. *)
Lemma fetch_api_calls JS env url options (w : World Session) :
  let w' := (run env (fetch JS (InUrl url) options) w).2 in
  (length (api_calls (new_events w w')) <= 1)%nat /\
  forall t rq, In (t, rq) (api_calls (new_events w w')) ->
    rq_url rq = url_set "raw_json" (QStr "1")
                  {| origin := origin url; pathname := pathname url +:+ ".json";
                     search := search url |}.
Proof.
  cbv zeta. rewrite fetch_run.
  assert (Hanon : forall opts (v : World Session),
    (length (api_calls (new_events v (anon_run JS env (InUrl url) opts v).2)) <= 1)%nat /\
    forall t rq, In (t, rq) (api_calls (new_events v (anon_run JS env (InUrl url) opts v).2)) ->
      rq_url rq = url_set "raw_json" (QStr "1")
                    {| origin := origin url; pathname := pathname url +:+ ".json";
                       search := search url |}).
  { intros opts v. rewrite anon_run_api_calls. split; [cbn; lia|].
    intros t rq [[= _ <-]|[]]. reflexivity. }
  destruct (oauth (this w)) as [o|]; [| apply Hanon].
  rewrite RedditOauth_fetch_run.
  destruct (token_stale (clock w) (token_of (this w))); [| apply Hanon].
  pose proof (getNewToken_frame env w) as (_ & _ & _ & _ & Hapi & _).
  pose proof (run_extends env getNewToken w) as [Ht1 _].
  destruct (run env getNewToken w) as [[g|e] w1]; cbn in *.
  - erewrite new_events_trans; [| exact Ht1 | apply anon_run_extends].
    rewrite api_calls_app, Hapi. cbn. apply Hanon.
  - rewrite Hapi. split; [cbn; lia | intros t rq []].
Qed.

Lemma Traversal_api_calls JS env cb url limit acc (w : World Session) out w' n :
  Traversal env JS cb url limit acc w out w' n ->
  trace w' = trace w ++ new_events w w' /\
  (length (api_calls (new_events w w')) <= n)%nat.
Proof.
  assert (Hfetch : forall u (v v1 : World Session) out1,
    run env (fetch JS (InUrl u) no_init) v = (out1, v1) ->
    trace v1 = trace v ++ new_events v v1 /\
    (length (api_calls (new_events v v1)) <= 1)%nat).
  { intros u v v1 out1 Hrun.
    pose proof (run_extends env (fetch JS (InUrl u) no_init) v) as [Ht _].
    pose proof (fetch_api_calls JS env u no_init v) as [Hlen _].
    cbv zeta in Hlen. rewrite Hrun in Ht, Hlen. auto. }
  induction 1 as [ url limit acc w its after w1 Hrun Hstop
                 | url limit acc w its after w1 out w2 n Hrun Hafter Hleft Hrest IH
                 | url limit acc w j w1 Hrun Hj
                 | url limit acc w e w1 Hrun ];
    try (eapply Hfetch; eassumption).
  - destruct (Hfetch _ _ _ _ Hrun) as [Ht Hlen].
    assert (Hnew : new_events w (deliver_page cb its w1) =
                   new_events w w1 ++ callback_events cb its).
    { apply new_events_app. now rewrite deliver_page_trace, Ht at 1; rewrite <- app_assoc. }
    split; [now rewrite Hnew, app_assoc, <- Ht, deliver_page_trace|].
    now rewrite Hnew, api_calls_app, api_calls_callback_events, app_nil_r.
  - destruct (Hfetch _ _ _ _ Hrun) as [Ht Hlen].
    destruct IH as [Ht2 IH].
    assert (Hmid : trace (deliver_page cb its w1) =
                   trace w ++ (new_events w w1 ++ callback_events cb its)).
    { now rewrite deliver_page_trace, Ht at 1; rewrite <- app_assoc. }
    assert (Hnew : new_events w w2 =
                   (new_events w w1 ++ callback_events cb its)
                     ++ new_events (deliver_page cb its w1) w2).
    { eapply new_events_trans; eauto. }
    split; [now rewrite Hnew, app_assoc, <- Hmid|].
    rewrite Hnew, !api_calls_app, api_calls_callback_events, app_nil_r, length_app.
    lia.
Qed.

Lemma page_budget_bound z n :
  (n = 1%nat \/ 100 * (Z.of_nat n - 1) < z) -> Z.of_nat n <= page_budget z.
Proof.
  unfold page_budget. intros [-> | H]; [apply Z.le_max_l|].
  etransitivity; [| apply Z.le_max_r].
  apply Z.div_le_lower_bound; lia.
Qed.

(** X9: [paginate] never makes more API calls than its page budget: one
    for every hundred begun of [params.limit], and one when the limit is
    absent, zero or not a number.  A listing getter called without a limit
    therefore never goes past the first page, whatever cursor it gets. *)
Theorem paginate_call_bound JS env endpoint params cb (w : World Session) :
  let calls := api_calls (new_events w (run env (paginate JS endpoint params cb) w).2) in
  Z.of_nat (length calls) <=
    match initial_limit JS params with
    | Num z => page_budget z
    | NaN => 1
    end /\
  (search_get "limit" (default [] params) = None -> (length calls <= 1)%nat).
Proof.
  cbv zeta. rewrite paginate_run.
  destruct (paginate_loop_traversal JS env cb _
              (listing_url (this w) endpoint params) (initial_limit JS params) [] w
              (enough_loop_fuel _)) as [n Hn].
  pose proof (Traversal_bound _ _ _ _ _ _ _ _ _ _ Hn) as Hb.
  apply Traversal_api_calls in Hn. destruct Hn as [_ Hlen].
  assert (Hmain : Z.of_nat n <= match initial_limit JS params with
                                | Num z => page_budget z
                                | NaN => 1
                                end).
  { destruct (initial_limit JS params) as [|z] eqn:Hl.
    - destruct Hb as [-> | (z & Hz & _)]; [lia | discriminate].
    - apply page_budget_bound. destruct Hb as [-> | (z' & [= <-] & Hlt)]; auto. }
  split; [lia|].
  intros Hnone.
  assert (Hl : initial_limit JS params = Num 100).
  { unfold initial_limit. destruct params as [ps|]; [| reflexivity].
    cbn in Hnone. now rewrite Hnone. }
  rewrite Hl in Hmain.
  assert (Hone : page_budget 100 = 1) by reflexivity.
  rewrite Hone in Hmain. lia.
Qed.

Example paginate_without_limit_example :
  let r := run (instant three_pages) (subreddit_hot decimal "deno" None false)
             (start (new_RedditAnon 0 None) 0) in
  r.1 = Returned (items_from 0 100) /\ length (fetches (trace r.2)) = 1%nat.
Proof. vm_compute. split; reflexivity. Qed.

Lemma paginate_call_bound_witness :
  (length (api_calls (new_events (start (new_RedditAnon 0 None) 0)
     (run (instant three_pages) (paginate decimal "r/deno/hot" None false)
        (start (new_RedditAnon 0 None) 0)).2)) <= 1)%nat.
Proof.
  apply (proj2 (paginate_call_bound decimal (instant three_pages) "r/deno/hot" None false
                  (start (new_RedditAnon 0 None) 0))).
  reflexivity.
Defined.

Lemma page_budget_step z : 100 < z -> page_budget z = page_budget (z - 100) + 1.
Proof.
  intros Hz. unfold page_budget.
  replace (z + 99) with ((z - 100 + 99) + 1 * 100) by lia.
  rewrite Z.div_add by lia.
  assert (1 <= (z - 100 + 99) / 100) by (apply Z.div_le_lower_bound; lia).
  rewrite !Z.max_r by lia. reflexivity.
Qed.

Lemma page_budget_small z : z <= 100 -> page_budget z = 1.
Proof.
  intros Hz. unfold page_budget.
  assert ((z + 99) / 100 <= 1); [| apply Z.max_l; lia].
  apply Z.lt_succ_r. apply Z.div_lt_upper_bound; lia.
Qed.

(** Against a listing that always has a next page, a traversal goes on
    until the budget is used up. *)
Lemma Traversal_endless JS env cb (P : World Session -> Prop) :
  (forall w url, P w ->
     exists its after w1,
       run env (fetch JS (InUrl url) no_init) w = (Returned (JListing its after), w1) /\
       str_truthy after = true /\ P (deliver_page cb its w1)) ->
  forall url limit acc w out w' n,
    Traversal env JS cb url limit acc w out w' n ->
    P w ->
    forall z, limit = Num z ->
      Z.of_nat n = page_budget z /\ exists items, out = Returned items.
Proof.
  intros Hinv.
  induction 1 as [ url limit acc w its after w1 Hrun Hstop
                 | url limit acc w its after w1 out w2 n Hrun Hafter Hleft Hrest IH
                 | url limit acc w j w1 Hrun Hj
                 | url limit acc w e w1 Hrun ];
    intros HP z ->;
    destruct (Hinv w url HP) as (its' & after' & w1' & Hrun' & Hafter' & HP');
    rewrite Hrun in Hrun'.
  - injection Hrun' as <- <- <-. rewrite Hafter' in Hstop. cbn in Hstop.
    unfold budget_left in Hstop. cbn in Hstop.
    rewrite page_budget_small by lia. split; [reflexivity | eauto].
  - injection Hrun' as <- <- <-.
    destruct (budget_left_num _ Hleft) as (z' & [= <-] & Hz).
    destruct (IH HP' (z - 100) eq_refl) as [Hn Hout].
    split; [| exact Hout]. rewrite (page_budget_step z Hz). lia.
  - injection Hrun' as -> _. exfalso. eapply Hj. reflexivity.
  - discriminate Hrun'.
Qed.

(** X10: against a listing whose every page has a cursor, [paginate] with a
    limit [z] returns after exactly one page for every hundred begun of [z]
    (and one at least), whatever the number of items in the pages: the
    pages answered are [max 1 (ceil (z / 100))] in number.  [P] is any
    property of the session and the trace that the fetches keep and under
    which they are answered by such a page. *)
Theorem paginate_endless JS env endpoint params cb (P : World Session -> Prop) z :
  initial_limit JS params = Num z ->
  (forall w url, P w ->
     exists its after w1,
       run env (fetch JS (InUrl url) no_init) w = (Returned (JListing its after), w1) /\
       str_truthy after = true /\ P (deliver_page cb its w1)) ->
  forall w, P w ->
    let r := run env (paginate JS endpoint params cb) w in
    exists items,
      r.1 = Returned items /\
      Z.of_nat (length (pages_of (answers_from env (trace w) (new_events w r.2)))) =
        page_budget z.
Proof.
  intros Hl Hinv w HP r. subst r. rewrite paginate_run.
  destruct (paginate_loop_traversal JS env cb _
              (listing_url (this w) endpoint params) (initial_limit JS params) [] w
              (enough_loop_fuel _)) as [n Hn].
  destruct (Traversal_endless JS env cb P Hinv _ _ _ _ _ _ _ Hn HP z Hl)
    as [Hcount [items Hitems]].
  exists items. split; [exact Hitems|].
  apply Traversal_pages in Hn. destruct Hn as [_ Hpages].
  destruct (Hpages items Hitems) as (_ & Hlen & _). cbv zeta in Hlen.
  now rewrite Hlen.
Qed.

Lemma short_pages_invariant cb (w : World Session) url :
  oauth (this w) = None ->
  exists its after w1,
    run (instant short_pages) (fetch decimal (InUrl url) no_init) w =
      (Returned (JListing its after), w1) /\
    str_truthy after = true /\ oauth (this (deliver_page cb its w1)) = None.
Proof.
  intros Ho. rewrite fetch_run, Ho.
  unfold anon_run, receive, after_send, after_gate, decoded.
  destruct (js_is_zero (reqRemaining (rateLimit (this w)))); cbn;
    do 3 eexists; (split; [reflexivity|]); split; try reflexivity;
    destruct cb; cbn; exact Ho.
Qed.

Lemma paginate_endless_witness :
  exists items,
    (run (instant short_pages)
       (paginate decimal "r/deno/hot" (Some [("limit", QNum (Num 250))]) false)
       (start (new_RedditAnon 0 None) 0)).1 = Returned items /\
    Z.of_nat (length (pages_of (answers_from (instant short_pages) []
      (new_events (start (new_RedditAnon 0 None) 0)
         (run (instant short_pages)
            (paginate decimal "r/deno/hot" (Some [("limit", QNum (Num 250))]) false)
            (start (new_RedditAnon 0 None) 0)).2)))) = 3.
Proof.
  exact (paginate_endless decimal (instant short_pages) "r/deno/hot"
           (Some [("limit", QNum (Num 250))]) false
           (fun w => oauth (this w) = None) 250 eq_refl
           (fun w url => short_pages_invariant false w url)
           (start (new_RedditAnon 0 None) 0) eq_refl).
Defined.

Lemma asked_app (l k : list Event) : asked (l ++ k) = asked l ++ asked k.
Proof. unfold asked. now rewrite api_calls_app, fmap_app. Qed.

Lemma cursors_of_app (l k : list (Request * option Response)) :
  cursors_of (l ++ k) = cursors_of l ++ cursors_of k.
Proof.
  induction l as [|[rq [res|]] l IH]; cbn; auto.
  destruct (is_grant rq), (json res) as [[]|]; cbn; auto. now rewrite IH.
Qed.

Lemma no_api_no_cursors env pre tr :
  api_calls tr = [] -> cursors_of (answers_from env pre tr) = [].
Proof.
  revert pre. unfold api_calls.
  induction tr as [|[t rq| | |] tr IH]; intros pre H; cbn in *; auto.
  destruct (is_grant rq) eqn:Hg; cbn in H; [|discriminate].
  destruct (server env pre t rq) as [res|]; auto.
Qed.

Lemma anon_run_returned JS env input options (w : World Session) j w1 :
  anon_run JS env input options w = (Returned j, w1) ->
  exists res,
    server env (trace (after_gate env w)) (clock (after_gate env w))
      (anon_request (this w) input options) = Some res /\
    json res = Some j.
Proof.
  unfold anon_run, receive, decoded.
  destruct (server env _ _ _) as [res|]; [| discriminate].
  destruct (ok res); [| destruct (errorListeners _ =? 0)%nat; [discriminate|]];
    destruct (json res) as [j'|] eqn:Hj; try discriminate;
    intros [= <- _]; exists res; auto.
Qed.

Lemma anon_run_cursor JS env url options (w : World Session) j w1 :
  anon_run JS env (InUrl url) options w = (Returned j, w1) ->
  asked (new_events w w1) = [search_get "after" (search url)] /\
  cursors_of (answers_from env (trace w) (new_events w w1)) = cursor_of j.
Proof.
  intros Hrun.
  pose proof (anon_run_api_calls JS env (InUrl url) options w) as Hapi.
  pose proof (anon_run_answer JS env (InUrl url) options w) as Hans.
  destruct (anon_run_returned _ _ _ _ _ _ _ Hrun) as (res & Hsrv & Hj).
  rewrite Hrun in Hapi, Hans. cbn in Hapi, Hans.
  split.
  - unfold asked. rewrite Hapi. cbn. unfold after_of. cbn.
    rewrite search_get_set_ne by discriminate. reflexivity.
  - rewrite Hans, Hsrv. cbn. rewrite anon_request_not_grant, Hj.
    destruct j; reflexivity.
Qed.

(** The cursor asked for and the cursor got by a [fetch] that returns. *)
Lemma fetch_cursor JS env url (w : World Session) j w1 :
  run env (fetch JS (InUrl url) no_init) w = (Returned j, w1) ->
  asked (new_events w w1) = [search_get "after" (search url)] /\
  cursors_of (answers_from env (trace w) (new_events w w1)) = cursor_of j.
Proof.
  rewrite fetch_run.
  destruct (oauth (this w)) as [o|]; [| apply anon_run_cursor].
  rewrite RedditOauth_fetch_run.
  destruct (token_stale (clock w) (token_of (this w))); [| apply anon_run_cursor].
  pose proof (getNewToken_frame env w) as (_ & _ & _ & _ & Hapi & _).
  pose proof (run_extends env getNewToken w) as [Ht1 _].
  destruct (run env getNewToken w) as [[g|e] w0]; cbn in *; [| discriminate].
  intros H.
  pose proof (anon_run_extends JS env (InUrl url)
    (with_authorization (Bearer (access (token_of (this w0)))) no_init) w0) as Ht2.
  rewrite H in Ht2. cbn in Ht2. apply anon_run_cursor in H. destruct H as [Ha Hc].
  rewrite (new_events_trans w w0 w1 _ _ Ht1 Ht2). split.
  - rewrite asked_app, Ha. unfold asked at 1. now rewrite Hapi.
  - rewrite answers_from_app, cursors_of_app, <- Ht1, Hc.
    now rewrite (no_api_no_cursors _ _ _ Hapi).
Qed.

Lemma asked_callback_events cb its : asked (callback_events cb its) = [].
Proof. destruct cb; reflexivity. Qed.

Lemma removelast_cons {A : Type} (a : A) (l : list A) :
  l <> [] -> removelast (a :: l) = a :: removelast l.
Proof. destruct l; [contradiction | reflexivity]. Qed.

Lemma Traversal_cursors JS env cb url limit acc (w : World Session) out w' n :
  Traversal env JS cb url limit acc w out w' n ->
  forall items, out = Returned items ->
    let cursors := cursors_of (answers_from env (trace w) (new_events w w')) in
    cursors <> [] /\
    asked (new_events w w') =
      search_get "after" (search url) :: (ask_for <$> removelast cursors).
Proof.
  induction 1 as [ url limit acc w its after w1 Hrun Hstop
                 | url limit acc w its after w1 out w2 n Hrun Hafter Hleft Hrest IH
                 | url limit acc w j w1 Hrun Hj
                 | url limit acc w e w1 Hrun ]; intros items Hout; try discriminate.
  - pose proof (fetch_page _ _ _ _ _ _ _ Hrun) as (_ & _ & Ht).
    apply fetch_cursor in Hrun. destruct Hrun as [Ha Hc].
    assert (Hnew : new_events w (deliver_page cb its w1) =
                   new_events w w1 ++ callback_events cb its).
    { apply new_events_app. now rewrite deliver_page_trace, Ht at 1; rewrite <- app_assoc. }
    cbv zeta.
    rewrite Hnew, answers_from_app, answers_callback_events, app_nil_r, Hc.
    rewrite asked_app, asked_callback_events, app_nil_r, Ha.
    split; [discriminate | reflexivity].
  - pose proof (fetch_page _ _ _ _ _ _ _ Hrun) as (_ & _ & Ht).
    apply fetch_cursor in Hrun. destruct Hrun as [Ha Hc].
    apply Traversal_pages in Hrest. destruct Hrest as [Ht2 _].
    destruct (IH items Hout) as [Hne Hasked]. cbv zeta in Hne, Hasked |- *.
    assert (Hmid : trace (deliver_page cb its w1) =
                   trace w ++ (new_events w w1 ++ callback_events cb its)).
    { now rewrite deliver_page_trace, Ht at 1; rewrite <- app_assoc. }
    assert (Hnew : new_events w w2 =
                   (new_events w w1 ++ callback_events cb its)
                     ++ new_events (deliver_page cb its w1) w2).
    { eapply new_events_trans; eauto. }
    rewrite Hnew, answers_from_app, cursors_of_app, <- Hmid.
    rewrite answers_from_app, answers_callback_events, app_nil_r, Hc.
    rewrite !asked_app, asked_callback_events, app_nil_r, Ha, Hasked.
    cbn [cursor_of app]. split; [discriminate|].
    rewrite (removelast_cons _ _ Hne). cbn.
    rewrite search_get_set_eq. reflexivity.
Qed.

(** X11: the cursors of a traversal that returns are chained.  The first
    API call of [paginate] asks for the [after] of the caller's parameters,
    if there is one, and every later call asks for the cursor that came
    with the page before it; the cursor of the last page is asked for by no
    call. *)
Theorem paginate_cursor_chain JS env endpoint params cb (w : World Session) items w' :
  run env (paginate JS endpoint params cb) w = (Returned items, w') ->
  asked (new_events w w') =
    search_get "after" (default [] params)
      :: (ask_for <$> removelast (cursors_of (answers_from env (trace w) (new_events w w')))).
Proof.
  intros Hrun. rewrite paginate_run in Hrun.
  destruct (paginate_loop_traversal JS env cb _
              (listing_url (this w) endpoint params) (initial_limit JS params) [] w
              (enough_loop_fuel _)) as [n Hn].
  rewrite Hrun in Hn. cbn [fst snd] in Hn.
  apply (Traversal_cursors _ _ _ _ _ _ _ _ _ _ Hn items eq_refl).
Qed.

Lemma paginate_cursor_chain_witness :
  asked (new_events (start (new_RedditAnon 0 None) 0)
    (run (instant three_pages)
       (paginate decimal "r/deno/hot" (Some [("limit", QNum (Num 1000))]) false)
       (start (new_RedditAnon 0 None) 0)).2) =
  [None; Some (QStr "t3_p2"); Some (QStr "t3_p3")].
Proof.
  assert (Hrun :
    run (instant three_pages)
      (paginate decimal "r/deno/hot" (Some [("limit", QNum (Num 1000))]) false)
      (start (new_RedditAnon 0 None) 0) =
    (Returned (items_from 0 240),
     (run (instant three_pages)
        (paginate decimal "r/deno/hot" (Some [("limit", QNum (Num 1000))]) false)
        (start (new_RedditAnon 0 None) 0)).2))
    by (vm_compute; reflexivity).
  rewrite (paginate_cursor_chain _ _ _ _ _ _ _ _ Hrun).
  vm_compute. reflexivity.
Defined.

Lemma anon_run_quiet JS env input options (w : World Session) :
  let w' := (anon_run JS env input options w).2 in
  callbacks (new_events w w') = [] /\
  (length (pages_of (answers_from env (trace w) (new_events w w'))) <= 1)%nat.
Proof.
  cbv zeta. split.
  - unfold anon_run, receive, after_send, after_gate.
    destruct (js_is_zero (reqRemaining (rateLimit (this w)))); cbn;
      match goal with |- context [server env ?a ?b ?c] =>
        destruct (server env a b c) as [res|] end; cbn;
      try destruct (ok res); cbn;
      try destruct (errorListeners (this w) =? 0)%nat; cbn;
      simpl_trace; reflexivity.
  - rewrite anon_run_answer. cbn.
    destruct (server env _ _ _) as [res|]; cbn; [| lia].
    destruct (is_grant _), (json res) as [[]|]; cbn; lia.
Qed.

(** One call of [fetch], however it ends, hands nothing to a callback and
    is answered one listing page at most. *)
Lemma fetch_quiet JS env input options (w : World Session) :
  let w' := (run env (fetch JS input options) w).2 in
  callbacks (new_events w w') = [] /\
  (length (pages_of (answers_from env (trace w) (new_events w w'))) <= 1)%nat.
Proof.
  cbv zeta. rewrite fetch_run.
  destruct (oauth (this w)) as [o|]; [| apply anon_run_quiet].
  rewrite RedditOauth_fetch_run.
  destruct (token_stale (clock w) (token_of (this w))); [| apply anon_run_quiet].
  pose proof (getNewToken_frame env w) as (_ & _ & _ & _ & Hapi & _).
  pose proof (getNewToken_callbacks env w) as Hcb.
  pose proof (run_extends env getNewToken w) as [Ht1 _].
  destruct (run env getNewToken w) as [[g|e] w0]; cbn in *.
  - set (opts := with_authorization (Bearer (access (token_of (this w0)))) options).
    pose proof (anon_run_extends JS env input opts w0) as Ht2.
    destruct (anon_run_quiet JS env input opts w0) as [Hc Hp].
    rewrite (new_events_trans w w0 _ _ _ Ht1 Ht2).
    rewrite callbacks_app, Hcb, Hc, answers_from_app, pages_of_app, <- Ht1.
    rewrite (no_api_no_pages _ _ _ Hapi). auto.
  - rewrite Hcb, (no_api_no_pages _ _ _ Hapi). cbn. split; [reflexivity | lia].
Qed.

Lemma Traversal_failed JS env url limit acc (w : World Session) out w' n :
  Traversal env JS true url limit acc w out w' n ->
  forall e, out = Thrown e ->
    exists rest,
      pages_of (answers_from env (trace w) (new_events w w')) =
        callbacks (new_events w w') ++ rest /\
      (length rest <= 1)%nat /\
      n = S (length (callbacks (new_events w w'))).
Proof.
  induction 1 as [ url limit acc w its after w1 Hrun Hstop
                 | url limit acc w its after w1 out w2 n Hrun Hafter Hleft Hrest IH
                 | url limit acc w j w1 Hrun Hj
                 | url limit acc w e0 w1 Hrun ]; intros e Hout; try discriminate.
  - apply fetch_page in Hrun. destruct Hrun as (Hp & Hc & Ht).
    destruct (IH e Hout) as (rest & Hpages & Hlen & Hn).
    apply Traversal_pages in Hrest. destruct Hrest as [Ht2 _].
    assert (Hmid : trace (deliver_page true its w1) =
                   trace w ++ (new_events w w1 ++ [EvCallback its])).
    { cbn. now rewrite Ht at 1; rewrite <- app_assoc. }
    assert (Hnew : new_events w w2 =
                   (new_events w w1 ++ [EvCallback its])
                     ++ new_events (deliver_page true its w1) w2).
    { eapply new_events_trans; eauto. }
    exists rest. rewrite Hnew, answers_from_app, pages_of_app, <- Hmid, Hpages.
    rewrite answers_from_app, pages_of_app, Hp, !callbacks_app, Hc. cbn.
    rewrite ?app_nil_r. repeat split; auto; congruence.
  - apply fetch_page in Hrun. destruct Hrun as (Hp & Hc & _).
    exists []. rewrite Hp, Hc. destruct j; try (repeat split; cbn; auto; lia).
    now destruct (Hj children after).
  - destruct (fetch_quiet JS env (InUrl url) no_init w) as [Hc Hp].
    rewrite Hrun in Hc, Hp. cbn in Hc, Hp.
    exists (pages_of (answers_from env (trace w) (new_events w w1))).
    rewrite Hc. repeat split; auto.
Qed.

(** X12: a traversal that fails keeps what it has handed out.  When
    [paginate] with a callback throws, the callback has been given, whole
    and in order, every page answered before the call of [fetch] that
    failed, and nothing else; of the answers to the API calls only the last
    may be a page the callback never saw.  No more API calls were made than
    one for each page handed out and one for the failure. *)
Theorem paginate_failure JS env endpoint params (w : World Session) e w' :
  run env (paginate JS endpoint params true) w = (Thrown e, w') ->
  (exists rest,
     pages_of (answers_from env (trace w) (new_events w w')) =
       callbacks (new_events w w') ++ rest /\
     (length rest <= 1)%nat) /\
  (length (api_calls (new_events w w')) <= S (length (callbacks (new_events w w'))))%nat.
Proof.
  intros Hrun. rewrite paginate_run in Hrun.
  destruct (paginate_loop_traversal JS env true _
              (listing_url (this w) endpoint params) (initial_limit JS params) [] w
              (enough_loop_fuel _)) as [n Hn].
  rewrite Hrun in Hn. cbn [fst snd] in Hn.
  destruct (Traversal_failed _ _ _ _ _ _ _ _ _ Hn e eq_refl) as (rest & Hp & Hlen & Hnum).
  apply Traversal_api_calls in Hn. destruct Hn as [_ Hcalls].
  split; [exists rest; auto | lia].
Qed.

Lemma paginate_failure_witness :
  let w := start (new_RedditAnon 0 None) 0 in
  let r := run (instant line_drops)
             (paginate decimal "r/deno/hot" (Some [("limit", QNum (Num 1000))]) true) w in
  r.1 = Thrown (TypeError "fetch failed") /\
  callbacks (new_events w r.2) = [items_from 0 100; items_from 100 100] /\
  (length (api_calls (new_events w r.2)) <= S (length (callbacks (new_events w r.2))))%nat.
Proof.
  cbv zeta.
  assert (Hrun :
    run (instant line_drops)
      (paginate decimal "r/deno/hot" (Some [("limit", QNum (Num 1000))]) true)
      (start (new_RedditAnon 0 None) 0) =
    (Thrown (TypeError "fetch failed"),
     (run (instant line_drops)
        (paginate decimal "r/deno/hot" (Some [("limit", QNum (Num 1000))]) true)
        (start (new_RedditAnon 0 None) 0)).2))
    by (vm_compute; reflexivity).
  split; [vm_compute; reflexivity|]. split; [vm_compute; reflexivity|].
  exact (proj2 (paginate_failure _ _ _ _ _ _ _ Hrun)).
Defined.

Lemma append_assoc (a b c : string) : (a +:+ b) +:+ c = a +:+ b +:+ c.
Proof.
  induction a as [|x a IH]; [reflexivity|].
  change (String x ((a +:+ b) +:+ c) = String x (a +:+ b +:+ c)). now rewrite IH.
Qed.

Lemma all_to_app base path (l k : list Event) :
  all_to base path l -> all_to base path k -> all_to base path (l ++ k).
Proof. unfold all_to. rewrite api_calls_app. intros. apply List.Forall_app; auto. Qed.

Lemma fetch_all_to JS env url (w : World Session) :
  all_to (origin url) (pathname url +:+ ".json")
    (new_events w (run env (fetch JS (InUrl url) no_init) w).2).
Proof.
  destruct (fetch_api_calls JS env url no_init w) as [_ H]. cbv zeta in H.
  unfold all_to. apply List.Forall_forall. intros [t rq] Hin.
  cbn [snd]. rewrite (H t rq Hin). split; reflexivity.
Qed.

Lemma Traversal_all_to JS env cb url limit acc (w : World Session) out w' n :
  Traversal env JS cb url limit acc w out w' n ->
  all_to (origin url) (pathname url +:+ ".json") (new_events w w').
Proof.
  assert (Hfetch : forall u (v v1 : World Session) out1,
    run env (fetch JS (InUrl u) no_init) v = (out1, v1) ->
    trace v1 = trace v ++ new_events v v1 /\
    all_to (origin u) (pathname u +:+ ".json") (new_events v v1)).
  { intros u v v1 out1 Hrun.
    pose proof (run_extends env (fetch JS (InUrl u) no_init) v) as [Ht _].
    pose proof (fetch_all_to JS env u v) as Hall.
    rewrite Hrun in Ht, Hall. auto. }
  assert (Hcb : forall b p its, all_to b p (callback_events cb its)).
  { intros b p its. unfold all_to. rewrite api_calls_callback_events. constructor. }
  induction 1 as [ url limit acc w its after w1 Hrun Hstop
                 | url limit acc w its after w1 out w2 n Hrun Hafter Hleft Hrest IH
                 | url limit acc w j w1 Hrun Hj
                 | url limit acc w e w1 Hrun ];
    try (now apply Hfetch in Hrun).
  - apply Hfetch in Hrun. destruct Hrun as [Ht Hall].
    rewrite (new_events_app w (deliver_page cb its w1)
               (new_events w w1 ++ callback_events cb its)).
    + apply all_to_app; auto.
    + now rewrite deliver_page_trace, Ht at 1; rewrite <- app_assoc.
  - apply Hfetch in Hrun. destruct Hrun as [Ht Hall].
    apply Traversal_pages in Hrest. destruct Hrest as [Ht2 _].
    assert (Hmid : trace (deliver_page cb its w1) =
                   trace w ++ (new_events w w1 ++ callback_events cb its)).
    { now rewrite deliver_page_trace, Ht at 1; rewrite <- app_assoc. }
    rewrite (new_events_trans w _ w2 _ _ Hmid Ht2).
    apply all_to_app; [apply all_to_app; auto | exact IH].
Qed.

Lemma paginate_all_to JS env endpoint params cb (w : World Session) :
  all_to (baseUrl (this w)) ("/" +:+ endpoint +:+ ".json")
    (new_events w (run env (paginate JS endpoint params cb) w).2).
Proof.
  rewrite paginate_run.
  destruct (paginate_loop_traversal JS env cb _
              (listing_url (this w) endpoint params) (initial_limit JS params) [] w
              (enough_loop_fuel _)) as [n Hn].
  apply Traversal_all_to in Hn. cbn in Hn. now rewrite append_assoc in Hn.
Qed.

(** X13: where the getters of a subreddit send their requests.  Every API
    call of [subreddit(name).hot] goes to [/r/<name>/hot.json] at the base
    URL of the session, whatever the parameters and however many pages are
    walked; every API call of [subreddit(name).search] goes to
    [/<name>/search.json], without the [r/] in front. *)
Theorem subreddit_paths JS env name params cb (w : World Session) :
  plain_name name = true ->
  all_to (baseUrl (this w)) ("/r/" +:+ name +:+ "/hot.json")
    (new_events w (run env (subreddit_hot JS name params cb) w).2) /\
  all_to (baseUrl (this w)) ("/" +:+ name +:+ "/search.json")
    (new_events w (run env (subreddit_search JS name params) w).2).
Proof.
  intros _.
  assert (Ehot : "/" +:+ ("r/" +:+ name +:+ "/hot") +:+ ".json" =
                 "/r/" +:+ name +:+ "/hot.json").
  { rewrite !append_assoc. reflexivity. }
  assert (Esearch : "/" +:+ (name +:+ "/search") +:+ ".json" =
                    "/" +:+ name +:+ "/search.json").
  { rewrite !append_assoc. reflexivity. }
  split.
  - pose proof (paginate_all_to JS env ("r/" +:+ name +:+ "/hot") params cb w) as H.
    rewrite Ehot in H. exact H.
  - pose proof (paginate_all_to JS env (name +:+ "/search") params false w) as H.
    rewrite Esearch in H. exact H.
Qed.

Lemma subreddit_paths_witness :
  plain_name "deno" = true /\
  all_to (baseUrl (this (start (new_RedditAnon 0 None) 0))) ("/r/" +:+ "deno" +:+ "/hot.json")
    (new_events (start (new_RedditAnon 0 None) 0)
       (run (instant three_pages)
          (subreddit_hot decimal "deno" (Some [("limit", QNum (Num 1000))]) false)
          (start (new_RedditAnon 0 None) 0)).2) /\
  all_to (baseUrl (this (start (new_RedditAnon 0 None) 0))) ("/" +:+ "deno" +:+ "/search.json")
    (new_events (start (new_RedditAnon 0 None) 0)
       (run (instant three_pages)
          (subreddit_search decimal "deno" (Some [("q", QStr "fresh")]))
          (start (new_RedditAnon 0 None) 0)).2).
Proof.
  assert (Hname : plain_name "deno" = true) by reflexivity.
  split; [exact Hname|]. split.
  - exact (proj1 (subreddit_paths decimal (instant three_pages) "deno"
                    (Some [("limit", QNum (Num 1000))]) false
                    (start (new_RedditAnon 0 None) 0) Hname)).
  - exact (proj2 (subreddit_paths decimal (instant three_pages) "deno"
                    (Some [("q", QStr "fresh")]) false
                    (start (new_RedditAnon 0 None) 0) Hname)).
Defined.

Lemma same_identity_refl s : same_identity s s.
Proof. unfold same_identity. destruct (oauth s); auto 10. Qed.

Lemma same_identity_trans s1 s2 s3 :
  same_identity s1 s2 -> same_identity s2 s3 -> same_identity s1 s3.
Proof.
  unfold same_identity.
  destruct (oauth s1), (oauth s2), (oauth s3); intuition congruence.
Qed.

Lemma getNewToken_identity env (w : World Session) :
  same_identity (this w) (this (run env getNewToken w).2).
Proof.
  unfold getNewToken. break_run; unfold same_identity; cbn;
    repeat match goal with H : oauth _ = _ |- _ => rewrite H end; cbn; auto 10.
Qed.

Lemma anon_run_identity JS env input options (w : World Session) :
  same_identity (this w) (this (anon_run JS env input options w).2).
Proof.
  unfold anon_run, receive, after_send, after_gate.
  destruct (js_is_zero (reqRemaining (rateLimit (this w)))); cbn;
    match goal with |- context [server env ?a ?b ?c] =>
      destruct (server env a b c) as [res|] end; cbn;
    try destruct (ok res); cbn;
    try destruct (errorListeners (this w) =? 0)%nat; cbn;
    try apply same_identity_refl;
    unfold same_identity; cbn; destruct (oauth (this w)); auto 10.
Qed.

Lemma fetch_identity JS env input options (w : World Session) :
  same_identity (this w) (this (run env (fetch JS input options) w).2).
Proof.
  rewrite fetch_run.
  destruct (oauth (this w)) as [o|]; [| apply anon_run_identity].
  rewrite RedditOauth_fetch_run.
  destruct (token_stale (clock w) (token_of (this w))); [| apply anon_run_identity].
  pose proof (getNewToken_identity env w) as Hg.
  destruct (run env getNewToken w) as [[g|e] w0]; cbn in *; [| exact Hg].
  eapply same_identity_trans; [exact Hg | apply anon_run_identity].
Qed.

Lemma Traversal_identity JS env cb url limit acc (w : World Session) out w' n :
  Traversal env JS cb url limit acc w out w' n ->
  same_identity (this w) (this w').
Proof.
  assert (Hfetch : forall u (v v1 : World Session) out1,
    run env (fetch JS (InUrl u) no_init) v = (out1, v1) ->
    same_identity (this v) (this v1)).
  { intros u v v1 out1 Hrun.
    pose proof (fetch_identity JS env (InUrl u) no_init v) as H.
    now rewrite Hrun in H. }
  assert (Hcb : forall its (v : World Session), this (deliver_page cb its v) = this v).
  { intros its v. unfold deliver_page. now destruct cb. }
  induction 1 as [ url limit acc w its after w1 Hrun Hstop
                 | url limit acc w its after w1 out w2 n Hrun Hafter Hleft Hrest IH
                 | url limit acc w j w1 Hrun Hj
                 | url limit acc w e w1 Hrun ];
    try (now apply Hfetch in Hrun).
  - rewrite Hcb. now apply Hfetch in Hrun.
  - apply Hfetch in Hrun. rewrite Hcb in IH.
    eapply same_identity_trans; eauto.
Qed.

(** X14: what a call may change.  However it ends, a call of [fetch], of
    [getNewToken] or of [paginate] leaves the client id and secret, the
    user name and password, the kind of app, the user agent, the base URL
    and the listeners of the session as they were: only the token and the
    rate-limit state change. *)
Theorem identity_kept JS env (w : World Session) :
  (forall input options,
     same_identity (this w) (this (run env (fetch JS input options) w).2)) /\
  same_identity (this w) (this (run env getNewToken w).2) /\
  (forall endpoint params cb,
     same_identity (this w) (this (run env (paginate JS endpoint params cb) w).2)).
Proof.
  split; [| split].
  - intros. apply fetch_identity.
  - apply getNewToken_identity.
  - intros endpoint params cb. rewrite paginate_run.
    destruct (paginate_loop_traversal JS env cb _
                (listing_url (this w) endpoint params) (initial_limit JS params) [] w
                (enough_loop_fuel _)) as [n Hn].
    now apply Traversal_identity in Hn.
Qed.

Lemma info_run JS env names (w : World Session) :
  run env (info JS names) w =
  match run env (fetch JS
          (InUrl (url_set "id" (QStr (join "," names))
                    {| origin := baseUrl (this w); pathname := "/api/info";
                       search := [] |})) no_init) w with
  | (Returned (JListing children _), w1) => (Returned children, w1)
  | (Returned j, w1) => (Thrown (not_a_listing j), w1)
  | (Thrown e, w1) => (Thrown e, w1)
  end.
Proof.
  unfold info. cbn. rewrite ?run_mbind, ?run_bind.
  destruct (run env _ w) as [[[]|e] w1]; reflexivity.
Qed.

(** X15: the static [Reddit.info].  Each call makes a session of its own,
    so no rate-limit state reaches it: it sends one request at once, at the
    time it is called, without a timer; the request goes to
    [/api/info.json] at [www.reddit.com] with the full names joined by
    commas in [id] and [raw_json=1], carries no [Authorization] and names
    the default user agent; an answer that is a listing gives its
    children. *)
Theorem static_info JS env now names :
  let rq := {| rq_url := {| origin := "https://www.reddit.com";
                            pathname := "/api/info.json";
                            search := [("id", QStr (join "," names));
                                       ("raw_json", QStr "1")] |};
               rq_method := None; rq_body := []; rq_authorization := None;
               rq_userAgent := Some ("Snooland " +:+ version) |} in
  let r := Reddit_info JS env now names in
  fetches (trace r.2) = [(now, rq)] /\
  timeouts (trace r.2) = [] /\
  forall res its after,
    server env [] now rq = Some res -> ok res = true ->
    json res = Some (JListing its after) ->
    r.1 = Returned its.
Proof.
  cbv zeta. unfold Reddit_info. rewrite info_run, fetch_run. cbn [this start oauth new_RedditAnon].
  unfold anon_run, after_gate, receive, after_send, decoded. cbn.
  destruct (server env _ _ _) as [res|] eqn:Hsrv; cbn.
  - destruct (ok res) eqn:Hok; cbn.
    + destruct (json res) as [[]|] eqn:Hj; cbn; repeat split; auto;
        intros res' its after' [= <-] _ Hj'; congruence.
    + repeat split; auto. intros res' its after' [= <-] Hok'. congruence.
  - repeat split; auto. discriminate.
Qed.

Lemma static_info_witness :
  (Reddit_info decimal (instant three_pages) 1000 ["t3_a"; "t1_b"]).1 =
  Returned (items_from 0 100).
Proof.
  exact (proj2 (proj2 (static_info decimal (instant three_pages) 1000 ["t3_a"; "t1_b"]))
           (ok_response (rate_headers "59" "60")
              (JListing (items_from 0 100) (Some "t3_p2")))
           (items_from 0 100) (Some "t3_p2") eq_refl eq_refl eq_refl).
Defined.

(** X16: what [reply] sends.  On an authenticated session whose token has
    not expired, [reply(parent, text)] makes one network call and no grant
    call: a POST to [/api/comment.json?raw_json=1] at the base URL of the
    session, whose form holds [api_type=json], the parent and the text,
    with the stored access token as bearer and the user agent of the
    session. *)
Theorem reply_request JS env parent text (w : World Session) o :
  oauth (this w) = Some o ->
  token_stale (clock w) (token o) = false ->
  exists t,
    fetches (new_events w (run env (reply JS parent text) w).2) =
      [(t, {| rq_url := {| origin := baseUrl (this w);
                           pathname := "/api/comment.json";
                           search := [("raw_json", QStr "1")] |};
              rq_method := Some "POST";
              rq_body := [("api_type", "json"); ("parent", parent); ("text", text)];
              rq_authorization := Some (Bearer (access (token o)));
              rq_userAgent := Some (userAgent (this w)) |})] /\
    clock w <= t.
Proof.
  intros Ho Hfresh. unfold reply. rewrite fetch_run, Ho, RedditOauth_fetch_run.
  assert (Htok : token_of (this w) = token o) by (unfold token_of; now rewrite Ho).
  rewrite Htok, Hfresh.
  match goal with |- context [anon_run JS env ?i ?opts w] =>
    destruct (anon_run_events JS env i opts w) as (Hf & Hle & _) end.
  eexists. split; [exact Hf | exact Hle].
Qed.

Lemma reply_request_witness :
  exists t,
    length (fetches (new_events (start (new_RedditOauth 0 (web_options "access-0" 5000)) 1000)
      (run granting (reply decimal "t3_abc" "Nice post")
         (start (new_RedditOauth 0 (web_options "access-0" 5000)) 1000)).2)) = 1%nat /\
    1000 <= t.
Proof.
  assert (Ho : oauth (this (start (new_RedditOauth 0 (web_options "access-0" 5000)) 1000)) =
               Some (fields_of (new_RedditOauth 0 (web_options "access-0" 5000))))
    by (vm_compute; reflexivity).
  assert (Hfresh : token_stale
                     (clock (start (new_RedditOauth 0 (web_options "access-0" 5000)) 1000))
                     (token (fields_of (new_RedditOauth 0 (web_options "access-0" 5000)))) =
                   false)
    by (vm_compute; reflexivity).
  destruct (reply_request decimal granting "t3_abc" "Nice post" _ _ Ho Hfresh)
    as (t & Hf & Hle).
  exists t. split; [now rewrite Hf | exact Hle].
Defined.

(** X17: the earlier class fails before it calls anyone.  A web session
    whose token is missing or expired and which holds no refresh token
    throws [Error("Use setToken to set the token for web apps")] from
    [fetch]; a script session in that state without a user name or a
    password throws [Error("Username and password are required for script
    apps")].  In both cases nothing is sent and the session is left as it
    was.  The constructor stores no token, so the first [fetch] of a web
    session on which [setToken] was not called fails this way. *)
Theorem legacy_fetch_refuses JS env input options :
  (forall w : World Legacy.RedditOauth,
     Legacy.token_stale (clock w) (Legacy.token (this w)) = Returned true ->
     Legacy.appType (this w) = web ->
     str_truthy (Legacy.held_refresh (this w)) = false ->
     run env (Legacy.fetch JS input options) w =
       (Thrown (Error "Use setToken to set the token for web apps"), w)) /\
  (forall w : World Legacy.RedditOauth,
     Legacy.token_stale (clock w) (Legacy.token (this w)) = Returned true ->
     Legacy.appType (this w) = script ->
     str_truthy (Legacy.username (this w)) && str_truthy (Legacy.password (this w)) = false ->
     run env (Legacy.fetch JS input options) w =
       (Thrown (Error "Username and password are required for script apps"), w)) /\
  (forall id secret u p ua now,
     let w := start (Legacy.new_RedditOauth id secret web u p ua) now in
     run env (Legacy.fetch JS input options) w =
       (Thrown (Error "Use setToken to set the token for web apps"), w)).
Proof.
  assert (Hweb : forall w : World Legacy.RedditOauth,
     Legacy.token_stale (clock w) (Legacy.token (this w)) = Returned true ->
     Legacy.appType (this w) = web ->
     str_truthy (Legacy.held_refresh (this w)) = false ->
     run env (Legacy.fetch JS input options) w =
       (Thrown (Error "Use setToken to set the token for web apps"), w)).
  { intros w Hstale Happ Href. unfold Legacy.fetch, Legacy.getOauthToken. cbn.
    rewrite Hstale. cbn. rewrite Happ, Href. cbn. now destruct w. }
  split; [exact Hweb | split].
  - intros w Hstale Happ Hlogin. unfold Legacy.fetch, Legacy.getOauthToken. cbn.
    rewrite Hstale. cbn. rewrite Happ.
    apply andb_false_iff in Hlogin.
    destruct Hlogin as [-> | ->]; cbn; rewrite ?orb_true_r; cbn; now destruct w.
  - intros id secret u p ua now. cbv zeta. apply Hweb; reflexivity.
Qed.

Lemma legacy_fetch_refuses_witness :
  run (instant three_pages) (Legacy.fetch decimal (InPath "api/v1/me") no_init)
    (start (Legacy.new_RedditOauth "id" "secret" web None None None) 0) =
  (Thrown (Error "Use setToken to set the token for web apps"),
   start (Legacy.new_RedditOauth "id" "secret" web None None None) 0).
Proof.
  exact (proj1 (legacy_fetch_refuses decimal (instant three_pages)
                  (InPath "api/v1/me") no_init)
           (start (Legacy.new_RedditOauth "id" "secret" web None None None) 0)
           eq_refl eq_refl eq_refl).
Defined.

(** X18: an HTTP error in the earlier class.  When the API answers a
    [fetch] whose token has not expired with a status outside 200-299, the
    call throws [Error("<status>: <statusText>")]; the headers of that
    answer are not read, so the requests left and the reset time of the
    session stay as they were, and so does the token. *)
Theorem legacy_http_error JS env input options (w : World Legacy.RedditOauth) tk e rq res :
  Legacy.token (this w) = Some tk ->
  Legacy.expiry tk = Some (Num e) ->
  clock w <= e ->
  let r := run env (Legacy.fetch JS input options) w in
  In (rq, Some res) (answers_from env (trace w) (new_events w r.2)) ->
  ok res = false ->
  r.1 = Thrown (Error (pretty (status res) +:+ ": " +:+ statusText res)) /\
  Legacy.rateLimitRemaining (this r.2) = Legacy.rateLimitRemaining (this w) /\
  Legacy.rateLimitReset (this r.2) = Legacy.rateLimitReset (this w) /\
  Legacy.token (this r.2) = Some tk /\
  length (fetches (new_events w r.2)) = 1%nat.
Proof.
  intros Htk He Hle.
  assert (Hfresh : (e <? clock w) = false) by (apply Z.ltb_ge; lia).
  unfold Legacy.fetch, Legacy.token_stale. cbn. rewrite Htk, He, Hfresh. cbn.
  rewrite ?Htk.
  break_run; simpl_trace; intros Hin Hok;
    repeat match goal with
    | H : _ \/ _ |- _ => destruct H
    | H : False |- _ => destruct H
    end;
    try match goal with H : (_, _) = (_, Some _) |- _ => injection H as <- Hsrv end;
    repeat match goal with
    | H : ?a = Some _, H' : ?a = Some _ |- _ => rewrite H in H'; injection H' as ->
    end;
    try discriminate; try congruence;
    try (rewrite Hok in *; discriminate);
    repeat split; cbn; auto; congruence.
Qed.

Lemma legacy_http_error_witness :
  (run (instant failing_api) (Legacy.fetch decimal (InPath "api/v1/me") no_init)
     (start legacy_web 100)).1 =
  Thrown (Error "503: Service Unavailable").
Proof.
  assert (Hin :
    In ({| rq_url := new_URL (InPath "api/v1/me") Legacy.baseURL;
           rq_method := None; rq_body := [];
           rq_authorization := Some (Bearer (Some "access-0"));
           rq_userAgent := None |},
        Some (failing_response 503 "Service Unavailable"))
       (answers_from (instant failing_api) (trace (start legacy_web 100))
          (new_events (start legacy_web 100)
             (run (instant failing_api)
                (Legacy.fetch decimal (InPath "api/v1/me") no_init)
                (start legacy_web 100)).2)))
    by (vm_compute; left; reflexivity).
  assert (Hle : clock (start legacy_web 100) <= 500) by (cbn; lia).
  exact (proj1 (legacy_http_error decimal (instant failing_api) (InPath "api/v1/me") no_init
                  (start legacy_web 100) _ 500 _ _ eq_refl eq_refl Hle Hin eq_refl)).
Defined.
